(** * Panoramic object-feature extraction: [Eval.get_visual_features]

    A shallow embedding of [src/models/eval/eval.py], lines 150-209, and
    the properties of the per-view records it returns.

    Modelling conventions.
    - Tensors and numpy arrays are lists indexed by their leading
      dimension; [.cpu()] and [.numpy()] keep the values and are omitted.
    - Scalars (box coordinates, scores, mask values, angles) are exact
      rationals [Q]: rounding of the float addition is not modelled, the
      floor of [//] and the comparison with [0.5] are.
    - A Python exception is a value of [exn]; a computation that may raise
      returns a [result].
    - Calls of the collaborators (panorama capture, image loader, region
      detector) are recorded in a call log. *)

From Stdlib Require Import ZArith QArith Qround Lia Ascii.
From stdpp Require Import base option list strings gmap pretty.

Local Open Scope Z_scope.
Local Open Scope nat_scope.

(** ** Exceptions and results *)

Inductive exn : Set :=
  | IndexError   (* a list is indexed out of range *)
  | ValueError.  (* [np.stack] on arrays of different shapes *)

Inductive result (A : Type) : Type :=
  | Ok (a : A)
  | Raise (e : exn).
Arguments Ok {A} a.
Arguments Raise {A} e.

#[global] Instance result_ret : MRet result := λ A a, Ok a.
#[global] Instance result_bind : MBind result := λ A B f m,
  match m with
  | Ok a => f a
  | Raise e => Raise e
  end.

(** [seq[i]] for a Python list and an index [i >= 0]. *)
Definition index {A} (s : list A) (i : nat) : result A :=
  match s !! i with
  | Some a => Ok a
  | None => Raise IndexError
  end.

(** [a[:stop]]: a negative [stop] counts from the end of [a]. *)
Definition slice_to {A} (stop : Z) (a : list A) : list A :=
  if (0 <=? stop)%Z then take (Z.to_nat stop) a
  else take (length a - Z.to_nat (- stop)) a.

(** ** Data *)

(** One row [x1, y1, x2, y2] of the [K x 4] box tensor; the columns
    [coordinates[:, 0]] .. [coordinates[:, 3]] are the four projections. *)
Record Box : Set := mkBox { x1 : Q; y1 : Q; x2 : Q; y2 : Q }.

(** A mask is a grid of raw values; a binarized mask a grid of booleans. *)
Abbreviation Mask := (list (list Q)).
Abbreviation BoolMask := (list (list bool)).

(** Per-view metadata returned by [create_panorama]: the two keys read by
    [get_visual_features]; [orientation] stands for the remaining keys,
    which are carried along unread. *)
Record CameraInfo : Set := mkCameraInfo {
  h_view_angle : Q;
  v_view_angle : Q;
  orientation : Z
}.

(** [detector_results[i]]: the mapping with keys "features", "boxes",
    "scores", "labels" and "masks". *)
Module Detection.
Record t : Set := mk {
  features : list (list Q);
  boxes : list Box;
  scores : list Q;
  labels : list Z;
  masks : list Mask
}.
End Detection.

(** The dict appended to [object_features] for one view. *)
Record ObjectFeatureRecord : Set := mkRecord {
  box_features : list (list Q);
  roi_angles : list (Q * Q);
  boxes : list Box;
  masks : list BoolMask;
  class_probs : list Q;
  class_labels : list Z;
  camera_info : CameraInfo;
  num_objects : nat
}.

(** [args]: only [args.panoramic_boxes] is read. *)
Record Args : Set := mkArgs { panoramic_boxes : list Z }.

(** ** Array operations *)

(** [a // b] on scalars: the floor of the quotient. *)
Definition floor_divide (a b : Q) : Q :=
  inject_Z ((Qnum a * QDen b) / (QDen a * Qnum b))%Z.

(** [v > 0.5] on one scalar. *)
Definition gt_half (v : Q) : bool := negb (Qle_bool v (1 # 2)).

(** [masks > 0.5], elementwise on the whole tensor. *)
Definition binarize (masks : list Mask) : list BoolMask :=
  fmap (M := list) (fmap (M := list) (fmap (M := list) gt_half)) masks.

(** [(coordinates[:, 0] + coordinates[:, 2]) // 2,
     (coordinates[:, 1] + coordinates[:, 3]) // 2] *)
Definition center_coords (coordinates : list Box) : list Q * list Q :=
  ((λ s, floor_divide s 2) <$> zip_with Qplus (x1 <$> coordinates) (x2 <$> coordinates),
   (λ s, floor_divide s 2) <$> zip_with Qplus (y1 <$> coordinates) (y2 <$> coordinates)).

(** [np.stack([h_angle, v_angle], 1)] on two one-dimensional arrays:
    row [j] of the result is [(h_angle[j], v_angle[j])]. *)
Definition np_stack_1 (h_angle v_angle : list Q) : result (list (Q * Q)) :=
  if decide (length h_angle = length v_angle) then Ok (zip h_angle v_angle)
  else Raise ValueError.

(** [np.zeros((n, 2))] *)
Definition np_zeros_2 (n : nat) : list (Q * Q) := replicate n (0%Q, 0%Q).

(** ** Collaborators

    The functions imported from [scripts.generate_maskrcnn] and
    [scripts.geometry_utils], and the opaque values that flow between
    them. [to] is the method [images.to(cuda_device)]. *)
Class Collaborators : Type := {
  Env : Type;
  Image : Type;
  Batch : Type;
  Sizes : Type;
  Device : Type;
  create_panorama : Env → Z → list Image * list CameraInfo;
  to : Batch → Device → Batch;
  calculate_angles : list Q → list Q → Q → Q → list Q * list Q
}.

(** What §4.1 of the specification promises of [calculate_angles]: two
    sequences as long as the sequences of centers. *)
Definition angles_contract `{Collaborators} : Prop :=
  ∀ xs ys h v, length xs = length ys →
    length (calculate_angles xs ys h v).1 = length xs ∧
    length (calculate_angles xs ys h v).2 = length xs.

(** ** The call log *)

Inductive call `{Collaborators} : Type :=
  | CreatePanorama (env : Env) (start : Z)
  | ImageLoader (panorama_images : list Image) (pack : bool)
  | RegionDetector (images : Batch).

(** A computation that logs its calls and may raise. *)
Definition M `{Collaborators} (A : Type) : Type := (list call * result A)%type.

#[global] Instance M_ret `{Collaborators} : MRet M := λ A a, ([], Ok a).
#[global] Instance M_bind `{Collaborators} : MBind M := λ A B f m,
  match m with
  | (log, Ok a) => let '(log', r) := f a in (log ++ log', r)
  | (log, Raise e) => (log, Raise e)
  end.

Definition invoke `{Collaborators} {A} (c : call) (a : A) : M A := ([c], Ok a).
Definition lift `{Collaborators} {A} (r : result A) : M A := ([], r).

(** ** [Eval.get_visual_features] *)

Section GetVisualFeatures.
Context `{Collaborators}.

(** Lines 174-189: the angles of all boxes of view [i], before
    truncation. *)
Definition boxes_angles_of (camera_infos : list CameraInfo) (i : nat)
    (coordinates : list Box) : result (list (Q * Q)) :=
  if bool_decide (0 < length coordinates) then
    let center_coords := center_coords coordinates in
    camera_info_i ← index camera_infos i;
    let '(h_angle, v_angle) :=
      calculate_angles center_coords.1 center_coords.2
        (h_view_angle camera_info_i) (v_view_angle camera_info_i) in
    np_stack_1 h_angle v_angle
  else
    Ok (np_zeros_2 (length coordinates)).

(** Lines 167-207: the body of the loop, for view [i]. *)
Definition view_record (args : Args) (camera_infos : list CameraInfo)
    (detector_results : list Detection.t) (i : nat) : result ObjectFeatureRecord :=
  num_boxes ← index (panoramic_boxes args) i;
  detector_results_i ← index detector_results i;
  let features := Detection.features detector_results_i in
  let coordinates := Detection.boxes detector_results_i in
  let class_probs := Detection.scores detector_results_i in
  let class_labels := Detection.labels detector_results_i in
  let masks := Detection.masks detector_results_i in
  boxes_angles ← boxes_angles_of camera_infos i coordinates;
  let box_features := slice_to num_boxes features in
  let boxes_angles := slice_to num_boxes boxes_angles in
  let boxes := slice_to num_boxes coordinates in
  let masks := slice_to num_boxes masks in
  let class_probs := slice_to num_boxes class_probs in
  let class_labels := slice_to num_boxes class_labels in
  camera_info_i ← index camera_infos i;
  mret {| box_features := box_features;
          roi_angles := boxes_angles;
          boxes := boxes;
          masks := binarize masks;
          class_probs := class_probs;
          class_labels := class_labels;
          camera_info := camera_info_i;
          num_objects := length box_features |}.

(** Lines 164-207: [for i in range(len(detector_results))], appending
    to [object_features]; an exception ends the loop. *)
Definition append_view (args : Args) (camera_infos : list CameraInfo)
    (detector_results : list Detection.t)
    (acc : result (list ObjectFeatureRecord)) (i : nat)
    : result (list ObjectFeatureRecord) :=
  object_features ← acc;
  r ← view_record args camera_infos detector_results i;
  mret (object_features ++ [r]).

Definition views_loop (args : Args) (camera_infos : list CameraInfo)
    (detector_results : list Detection.t) : result (list ObjectFeatureRecord) :=
  foldl (append_view args camera_infos detector_results) (Ok [])
    (seq 0 (length detector_results)).

Definition get_visual_features (env : Env)
    (image_loader : list Image → bool → Batch * Sizes)
    (region_detector : Batch → list Detection.t)
    (args : Args) (cuda_device : Device) : M (list ObjectFeatureRecord) :=
  '(panorama_images, camera_infos) ←
    invoke (CreatePanorama env 0) (create_panorama env 0);
  '(images, sizes) ←
    invoke (ImageLoader panorama_images true) (image_loader panorama_images true);
  let images := to images cuda_device in
  detector_results ← invoke (RegionDetector images) (region_detector images);
  lift (views_loop args camera_infos detector_results).

(** The values the loop of [get_visual_features] works on. *)
Definition camera_infos_of (env : Env) : list CameraInfo :=
  (create_panorama env 0).2.

Definition detector_results_of (env : Env)
    (image_loader : list Image → bool → Batch * Sizes)
    (region_detector : Batch → list Detection.t)
    (cuda_device : Device) : list Detection.t :=
  region_detector (to (image_loader (create_panorama env 0).1 true).1 cuda_device).

End GetVisualFeatures.

(** ** Stating the contracts of §4.3 and §4.4 *)

(** A detection group with [K] detections: five parallel arrays. *)
Definition has_detections (d : Detection.t) (K : nat) : Prop :=
  length (Detection.features d) = K ∧
  length (Detection.boxes d) = K ∧
  length (Detection.scores d) = K ∧
  length (Detection.labels d) = K ∧
  length (Detection.masks d) = K.

(** The angles of all boxes of a view with at least one detection. *)
Definition stacked_angles `{Collaborators} (ci : CameraInfo)
    (coordinates : list Box) : list (Q * Q) :=
  let c := center_coords coordinates in
  let a := calculate_angles c.1 c.2 (h_view_angle ci) (v_view_angle ci) in
  zip a.1 a.2.

(** What lines 191-207 build from a detection group [d], its cap [C], the
    angles of its boxes and the camera metadata of its view. *)
Definition packaged (C : Z) (d : Detection.t) (angles : list (Q * Q))
    (ci : CameraInfo) : ObjectFeatureRecord :=
  {| box_features := slice_to C (Detection.features d);
     roi_angles := slice_to C angles;
     boxes := slice_to C (Detection.boxes d);
     masks := binarize (slice_to C (Detection.masks d));
     class_probs := slice_to C (Detection.scores d);
     class_labels := slice_to C (Detection.labels d);
     camera_info := ci;
     num_objects := length (slice_to C (Detection.features d)) |}.

(** The value of a mask at one pixel. *)
Definition pixel {A} (m : list (list A)) (row col : nat) : option A :=
  line ← m !! row; line !! col.

(** The three calls of one run, in order. *)
Definition calls_of `{Collaborators} (env : Env)
    (image_loader : list Image → bool → Batch * Sizes)
    (cuda_device : Device) : list call :=
  let panorama_images := (create_panorama env 0).1 in
  [CreatePanorama env 0;
   ImageLoader panorama_images true;
   RegionDetector (to (image_loader panorama_images true).1 cuda_device)].

(** ** A panorama of two views

    The scenario of §8: view 0 has three detections, view 1 has none, and
    the cap is 2 for both. *)

(** Modelled from the spec: [scripts.geometry_utils.calculate_angles] is
    not part of the sources at hand. §4.1 describes it as a linear map from
    the normalized pixel position to the half field of view, applied to
    every point; [frame] is the side of the square frame. *)
Definition linear_angles (frame : Q) (xs ys : list Q) (h v : Q) : list Q * list Q :=
  ((λ x, (x - frame / 2) / (frame / 2) * (h / 2))%Q <$> xs,
   (λ y, (y - frame / 2) / (frame / 2) * (v / 2))%Q <$> ys).

Definition demo : Collaborators := {|
  Env := unit;
  Image := nat;
  Batch := list nat;
  Sizes := list (nat * nat);
  Device := Z;
  create_panorama := λ _ _,
    ([0; 1], [mkCameraInfo 90 60 0; mkCameraInfo 90 60 45]);
  to := λ images _, images;
  calculate_angles := linear_angles 300
|}.

(** [calculate_angles] returning the centers it is given: it makes the
    centers visible in [roi_angles]. *)
Definition probe : Collaborators := {|
  Env := unit;
  Image := nat;
  Batch := list nat;
  Sizes := list (nat * nat);
  Device := Z;
  create_panorama := λ _ _, ([0], [mkCameraInfo 90 60 0]);
  to := λ images _, images;
  calculate_angles := λ xs ys _ _, (xs, ys)
|}.

Definition demo_image_loader (panorama_images : list nat) (pack : bool)
    : list nat * list (nat * nat) :=
  (panorama_images, (λ _, (300, 300)) <$> panorama_images).

Definition three_detections : Detection.t := {|
  Detection.features := [[1; 0]; [0; 1]; [1; 1]]%Q;
  Detection.boxes := [mkBox 1 1 2 2; mkBox 10 20 31 41; mkBox 100 100 200 250]%Q;
  Detection.scores := [3 # 10; 9 # 10; 1 # 2]%Q;
  Detection.labels := [3; 7; 3]%Z;
  Detection.masks := [[[1 # 2; 3 # 4]; [0; 1]];
                      [[51 # 100; 49 # 100]; [1 # 2; 1]];
                      [[1; 1]; [1; 1]]]%Q
|}.

Definition no_detections : Detection.t := {|
  Detection.features := [];
  Detection.boxes := [];
  Detection.scores := [];
  Detection.labels := [];
  Detection.masks := []
|}.

(** Two feature rows for one box: the arrays disagree. *)
Definition ragged_detections : Detection.t := {|
  Detection.features := [[1; 0]; [0; 1]]%Q;
  Detection.boxes := [mkBox 1 1 2 2]%Q;
  Detection.scores := [3 # 10]%Q;
  Detection.labels := [3]%Z;
  Detection.masks := [[[1 # 2; 3 # 4]; [0; 1]]]%Q
|}.

Definition demo_region_detector (images : list nat) : list Detection.t :=
  (λ img, if Nat.eqb img 0 then three_detections else no_detections) <$> images.

Definition ragged_region_detector (images : list nat) : list Detection.t :=
  (λ img, if Nat.eqb img 0 then ragged_detections else no_detections) <$> images.

Definition one_box_detector (images : list nat) : list Detection.t :=
  (λ _, {| Detection.features := [[1]]%Q;
           Detection.boxes := [mkBox 1 1 2 2]%Q;
           Detection.scores := [1]%Q;
           Detection.labels := [1]%Z;
           Detection.masks := [[[1]]]%Q |}) <$> images.

Definition demo_args : Args := {| panoramic_boxes := [2; 2]%Z |}.
Definition short_args : Args := {| panoramic_boxes := [2]%Z |}.

(** [calculate_angles] breaking its contract: no vertical angles. *)
Definition lopsided : Collaborators := {|
  Env := unit;
  Image := nat;
  Batch := list nat;
  Sizes := list (nat * nat);
  Device := Z;
  create_panorama := λ _ _,
    ([0; 1], [mkCameraInfo 90 60 0; mkCameraInfo 90 60 45]);
  to := λ images _, images;
  calculate_angles := λ xs ys _ _, (xs, [])
|}.

(** Panorama capture returning metadata for the first view only. *)
Definition one_camera : Collaborators := {|
  Env := unit;
  Image := nat;
  Batch := list nat;
  Sizes := list (nat * nat);
  Device := Z;
  create_panorama := λ _ _, ([0; 1], [mkCameraInfo 90 60 0]);
  to := λ images _, images;
  calculate_angles := linear_angles 300
|}.

Definition empty_region_detector (images : list nat) : list Detection.t :=
  (λ _, no_detections) <$> images.

Definition negative_args : Args := {| panoramic_boxes := [-1; -5]%Z |}.
Definition wide_args : Args := {| panoramic_boxes := [3; 2]%Z |}.

(** * The rest of [Eval]

    [queue_tasks], [spawn_threads] and [setup_scene], and the path
    computation of [__init__]. *)

(** ** Exceptions of these methods *)

Module Py.
Inductive key : Set :=
  | Str (s : string)
  | Int (i : Z).

Inductive exception : Set :=
  | KeyError (k : key)
  | IndexError
  | TypeError.

Inductive res (A : Type) : Type :=
  | Return (a : A)
  | Throw (e : exception).
Arguments Return {A} a.
Arguments Throw {A} e.
End Py.

#[global] Instance res_ret : MRet Py.res := λ A a, Py.Return a.
#[global] Instance res_bind : MBind Py.res := λ A B f m,
  match m with
  | Py.Return a => f a
  | Py.Throw e => Py.Throw e
  end.

(** A computation that logs events of type [E] and may raise. *)
Definition Logged (E A : Type) : Type := (list E * Py.res A)%type.

#[global] Instance Logged_ret {E} : MRet (Logged E) := λ A a, ([], Py.Return a).
#[global] Instance Logged_bind {E} : MBind (Logged E) := λ A B f m,
  match m with
  | (log, Py.Return a) => let '(log', r) := f a in (log ++ log', r)
  | (log, Py.Throw e) => (log, Py.Throw e)
  end.

Definition emit {E} (e : E) : Logged E unit := ([e], Py.Return ()).
Definition pure {E A} (r : Py.res A) : Logged E A := ([], r).

(** ** [queue_tasks]: lines 72-87 *)

(** The fields of [args] read by [queue_tasks] and [spawn_threads]. *)
Record RunArgs : Set := mkRunArgs {
  eval_split : string;
  fast_epoch : bool;
  shuffle : bool;
  num_threads : Z
}.

(** The module [random]: [random.shuffle(x)] reorders [x] in place, using
    and advancing the state of the generator. *)
Class Random : Type := {
  Rng : Type;
  random_shuffle : ∀ {A : Type}, Rng → list A → list A * Rng
}.

Definition shuffle_contract `{Random} : Prop :=
  ∀ (A : Type) (g : Rng) (x : list A), (random_shuffle g x).1 ≡ₚ x.

(** What the variable [files] refers to: the list object stored in
    [self.splits], or a list of its own (the copy made by a slice). *)
Inductive list_ref (T : Type) : Type :=
  | Stored (name : string)
  | Fresh (l : list T).
Arguments Stored {T} name.
Arguments Fresh {T} l.

Section QueueTasks.
Context `{Random} {Traj : Type}.

Definition deref (splits : gmap string (list Traj)) (r : list_ref Traj) : list Traj :=
  match r with
  | Stored name => default [] (splits !! name)
  | Fresh l => l
  end.

(** [random.shuffle(files)]: the object [files] refers to is reordered. *)
Definition shuffle_in_place (g : Rng) (splits : gmap string (list Traj))
    (files : list_ref Traj) : gmap string (list Traj) * list_ref Traj * Rng :=
  let '(shuffled, g') := random_shuffle g (deref splits files) in
  match files with
  | Stored name => (<[name := shuffled]> splits, files, g')
  | Fresh _ => (splits, Fresh shuffled, g')
  end.

(** The queue of [manager.Queue()] is the list of what was [put], oldest
    first. The result is the queue with [self.splits] and the generator as
    the call leaves them. *)
Definition queue_tasks (splits : gmap string (list Traj)) (args : RunArgs) (g : Rng)
    : Py.res (list Traj * gmap string (list Traj) * Rng) :=
  let task_queue := [] in
  match splits !! eval_split args with
  | None => Py.Throw (Py.KeyError (Py.Str (eval_split args)))
  | Some _ =>
      let files := Stored (eval_split args) in
      let files :=
        if fast_epoch args then Fresh (slice_to 16 (deref splits files)) else files in
      let '(splits, files, g) :=
        if shuffle args then shuffle_in_place g splits files else (splits, files, g) in
      let task_queue :=
        foldl (λ task_queue traj, task_queue ++ [traj]) task_queue (deref splits files) in
      Py.Return (task_queue, splits, g)
  end.

(** ** [spawn_threads]: lines 89-110

    What the calling process does; the workers it starts run [run] on
    their own and are not followed. [run] and [save_results] are the
    methods a subclass provides. *)
Inductive event : Type :=
  | NewLock
  | RunHere (task_queue : list Traj)
  | ProcessStart (n : nat) (task_queue : list Traj)
  | ProcessJoin (n : nat)
  | SaveResults.

Definition spawn_threads (run : list Traj → Py.res unit) (save_results : Py.res unit)
    (splits : gmap string (list Traj)) (args : RunArgs) (g : Rng)
    : Logged event (gmap string (list Traj) * Rng) :=
  '(task_queue, splits, g) ← pure (queue_tasks splits args g);
  let threads := [] in
  _ ← emit NewLock;
  _ ← (if bool_decide (num_threads args = 1%Z) then
         _ ← emit (RunHere task_queue);
         pure (run task_queue)
       else
         let '(threads, started) :=
           foldl (λ '(threads, log) n,
                    (threads ++ [n], log ++ [ProcessStart n task_queue]))
                 (threads, []) (seq 0 (Z.to_nat (num_threads args))) in
         (started ++ (ProcessJoin <$> threads), Py.Return ()));
  _ ← emit SaveResults;
  _ ← pure save_results;
  mret (splits, g).
End QueueTasks.
Arguments event : clear implicits.

(** A generator that reverses, for running the definitions. *)
Definition reversing : Random := {|
  Rng := nat;
  random_shuffle := λ A g x, (reverse x, S g)
|}.

Definition demo_splits : gmap string (list nat) :=
  {[ "valid_seen" := seq 0 20; "valid_unseen" := [7; 8; 9] ]}.

(** ** [setup_scene]: lines 112-134 *)

(** A value loaded by [json.load], as [traj_data] is. *)
#[warnings="-register-all"]
Inductive json : Type :=
  | JNull
  | JBool (b : bool)
  | JInt (n : Z)
  | JFloat (q : Q)
  | JStr (s : string)
  | JList (l : list json)
  | JDict (m : gmap string json).

(** [l[i]] for a Python list: a negative index counts from the end. *)
Definition py_index {A} (l : list A) (i : Z) : Py.res A :=
  let n := Z.of_nat (length l) in
  let j := if (i <? 0)%Z then (i + n)%Z else i in
  if (j <? 0)%Z then Py.Throw Py.IndexError
  else match l !! Z.to_nat j with
       | Some a => Py.Return a
       | None => Py.Throw Py.IndexError
       end.

(** [v[k]]: the keys of a loaded dict are strings; lists and strings take
    integers; nothing else can be subscripted. *)
Definition subscript (v : json) (k : Py.key) : Py.res json :=
  match v, k with
  | JDict m, Py.Str s =>
      match m !! s with
      | Some x => Py.Return x
      | None => Py.Throw (Py.KeyError k)
      end
  | JDict m, Py.Int i => Py.Throw (Py.KeyError k)
  | JList l, Py.Int i => py_index l i
  | JStr s, Py.Int i =>
      c ← py_index (String.list_ascii_of_string s) i;
      mret (JStr (String c EmptyString))
  | _, _ => Py.Throw Py.TypeError
  end.

Definition get (v : json) (k : string) : Py.res json := subscript v (Py.Str k).

(** ['%d' % v]: an integer in decimal, a float cut towards zero, a boolean
    as 0 or 1. *)
Definition format_d (v : json) : Py.res string :=
  match v with
  | JInt n => Py.Return (pretty n)
  | JBool b => Py.Return (if b then "1" else "0")
  | JFloat q => Py.Return (pretty (Z.quot (Qnum q) (QDen q)))
  | _ => Py.Throw Py.TypeError
  end.

(** The built-in [dict]: called on a dict it returns a copy. *)
Class Builtins : Type := {
  py_dict : json → Py.res json
}.

Definition dict_contract `{Builtins} : Prop :=
  ∀ m, py_dict (JDict m) = Py.Return (JDict m).

(** The calls made on [env], and the one [print]. *)
Inductive env_call (ArgsT : Type) : Type :=
  | Reset (scene_name : string)
  | RestoreScene (object_poses object_toggles dirty_and_empty : json)
  | Step (action : json)
  | PrintTask (task_desc : json)
  | SetTask (traj_data : json) (args : ArgsT) (reward_type : string).
Arguments Reset {ArgsT} scene_name.
Arguments RestoreScene {ArgsT} object_poses object_toggles dirty_and_empty.
Arguments Step {ArgsT} action.
Arguments PrintTask {ArgsT} task_desc.
Arguments SetTask {ArgsT} traj_data args reward_type.

Section SetupScene.
Context `{Builtins} {ArgsT : Type}.

Definition setup_scene (traj_data : json) (r_idx : Z) (args : ArgsT)
    (reward_type : string) : Logged (env_call ArgsT) unit :=
  scene_num ← pure (scene ← get traj_data "scene"; get scene "scene_num");
  object_poses ← pure (scene ← get traj_data "scene"; get scene "object_poses");
  dirty_and_empty ← pure (scene ← get traj_data "scene"; get scene "dirty_and_empty");
  object_toggles ← pure (scene ← get traj_data "scene"; get scene "object_toggles");
  scene_name ← pure (number ← format_d scene_num; mret ("FloorPlan" +:+ number));
  _ ← emit (Reset scene_name);
  _ ← emit (RestoreScene object_poses object_toggles dirty_and_empty);
  action ← pure (scene ← get traj_data "scene";
                 init_action ← get scene "init_action";
                 py_dict init_action);
  _ ← emit (Step action);
  task_desc ← pure (turk_annotations ← get traj_data "turk_annotations";
                    anns ← get turk_annotations "anns";
                    ann ← subscript anns (Py.Int r_idx);
                    get ann "task_desc");
  _ ← emit (PrintTask task_desc);
  emit (SetTask traj_data args reward_type).
End SetupScene.

(** [dict] on dicts alone, for running the definitions. *)
Definition dict_of_dict : Builtins := {|
  py_dict := λ v, match v with JDict m => Py.Return v | _ => Py.Throw Py.TypeError end
|}.

Definition demo_action : gmap string json := {[ "action" := JStr "TeleportFull" ]}.

Definition demo_scene : gmap string json :=
  {[ "scene_num" := JInt 12;
     "object_poses" := JList [JStr "Mug"];
     "dirty_and_empty" := JBool false;
     "object_toggles" := JList [];
     "init_action" := JDict demo_action ]}.

Definition demo_anns : list json :=
  [JDict {[ "task_desc" := JStr "Put a mug in the sink" ]};
   JDict {[ "task_desc" := JStr "Wash the mug" ]}].

Definition demo_turk : gmap string json := {[ "anns" := JList demo_anns ]}.

Definition demo_traj : gmap string json :=
  {[ "scene" := JDict demo_scene; "turk_annotations" := JDict demo_turk ]}.

(** A scene without its toggles. *)
Definition bare_scene : gmap string json :=
  {[ "scene_num" := JInt 12;
     "object_poses" := JList [JStr "Mug"];
     "dirty_and_empty" := JBool false ]}.

Definition bare_traj : gmap string json :=
  {[ "scene" := JDict bare_scene; "turk_annotations" := JDict demo_turk ]}.

(** ** The output directory: line 47 of [__init__]

    [model_path.replace(model_path.split('/')[-1], '')], on strings as
    lists of characters. *)

Section Paths.
Context {char : Type} `{EqDecision char}.

(** [s.split(sep)] for a separator of one character. *)
Fixpoint str_split (sep : char) (s : list char) : list (list char) :=
  match s with
  | [] => [[]]
  | c :: s' =>
      if decide (c = sep) then [] :: str_split sep s'
      else match str_split sep s' with
           | part :: parts => (c :: part) :: parts
           | [] => [[c]]
           end
  end.

(** The scan of [replace] for a non-empty [old]: occurrences are found
    from the left and do not overlap; [skip] counts the characters of the
    occurrence just replaced that are still to be passed. *)
Fixpoint replace_from (old new s : list char) (skip : nat) : list char :=
  match s with
  | [] => []
  | c :: s' =>
      match skip with
      | S skip' => replace_from old new s' skip'
      | 0 =>
          if bool_decide (old `prefix_of` s)
          then new ++ replace_from old new s' (length old - 1)
          else c :: replace_from old new s' 0
      end
  end.

(** [s.replace(old, new)]; an empty [old] matches before every character
    and at the end. *)
Definition str_replace (old new s : list char) : list char :=
  match old with
  | [] => new ++ concat ((λ c, c :: new) <$> s)
  | _ :: _ => replace_from old new s 0
  end.

Definition dout_of (slash : char) (model_path : list char) : Py.res (list char) :=
  name ← py_index (str_split slash model_path) (-1);
  mret (str_replace name [] model_path).
End Paths.

(** A string literal as the list of its characters. *)
Definition chars (s : string) : list ascii := String.list_ascii_of_string s.

(** * Properties *)

(** ** Slices *)

Section Slices.
Context {A : Type}.
Implicit Types (a : list A) (stop : Z).

Lemma slice_to_nonneg stop a :
  (0 ≤ stop)%Z → slice_to stop a = take (Z.to_nat stop) a.
Proof.
  intros Hs. unfold slice_to.
  destruct (Z.leb_spec 0 stop) as [_ | Hneg]; [done | lia].
Qed.

Lemma slice_to_is_take stop a : ∃ n, slice_to stop a = take n a.
Proof. unfold slice_to. destruct (0 <=? stop)%Z; eauto. Qed.

Lemma slice_to_nil stop : slice_to stop (@nil A) = [].
Proof. destruct (slice_to_is_take stop []) as [n ->]. apply take_nil. Qed.

Lemma length_slice_to stop a :
  (0 ≤ stop)%Z → length (slice_to stop a) = length a `min` Z.to_nat stop.
Proof. intros Hs. rewrite slice_to_nonneg, length_take by done. lia. Qed.

Lemma lookup_slice_to stop a j :
  j < length (slice_to stop a) → slice_to stop a !! j = a !! j.
Proof.
  destruct (slice_to_is_take stop a) as [n ->].
  rewrite length_take. intros Hj. apply lookup_take_lt. lia.
Qed.

Lemma slice_to_all stop a :
  (Z.of_nat (length a) ≤ stop)%Z → slice_to stop a = a.
Proof.
  intros Hs. rewrite slice_to_nonneg by lia. apply take_ge. lia.
Qed.
End Slices.

Lemma slice_to_fmap {A B} (f : A → B) stop (a : list A) :
  slice_to stop (f <$> a) = f <$> slice_to stop a.
Proof.
  unfold slice_to. rewrite length_fmap.
  destruct (0 <=? stop)%Z; by rewrite fmap_take.
Qed.

(** ** Scalars *)

Lemma floor_divide_2 (s : Q) : floor_divide s 2 = inject_Z (Qfloor (s / 2)).
Proof.
  destruct s as [n d]. unfold floor_divide, Qfloor, Qdiv, Qmult, Qinv. simpl.
  reflexivity.
Qed.

Lemma floor_divide_2_bounds (s : Q) :
  (floor_divide s 2 <= s / 2)%Q ∧ (s / 2 < floor_divide s 2 + 1)%Q.
Proof.
  rewrite floor_divide_2. split; [apply Qfloor_le | ].
  pose proof (Qlt_floor (s / 2)) as Hlt.
  rewrite inject_Z_plus in Hlt. exact Hlt.
Qed.

Lemma gt_half_spec (v : Q) : gt_half v = true ↔ (1 # 2 < v)%Q.
Proof.
  unfold gt_half. rewrite negb_true_iff, <- not_true_iff_false, Qle_bool_iff.
  split; [apply Qnot_le_lt | apply Qlt_not_le].
Qed.

Lemma gt_half_boundary (v : Q) : (v == 1 # 2)%Q → gt_half v = false.
Proof.
  intros Hv. apply not_true_iff_false. rewrite gt_half_spec, Hv.
  apply Qlt_irrefl.
Qed.

(** ** Centers and angles *)

Lemma length_center_coords coordinates :
  length (center_coords coordinates).1 = length coordinates ∧
  length (center_coords coordinates).2 = length coordinates.
Proof.
  unfold center_coords. simpl.
  rewrite !length_fmap, !length_zip_with, !length_fmap. lia.
Qed.

Lemma lookup_center_coords coordinates j b :
  coordinates !! j = Some b →
  (center_coords coordinates).1 !! j = Some (floor_divide (x1 b + x2 b) 2) ∧
  (center_coords coordinates).2 !! j = Some (floor_divide (y1 b + y2 b) 2).
Proof.
  intros Hb. unfold center_coords. simpl.
  rewrite !list_lookup_fmap, !lookup_zip_with, !list_lookup_fmap, Hb. done.
Qed.

Section Views.
Context `{Collaborators}.
Implicit Types (args : Args) (camera_infos : list CameraInfo)
  (detector_results : list Detection.t) (coordinates : list Box).

Lemma boxes_angles_of_empty camera_infos i :
  boxes_angles_of camera_infos i [] = Ok [].
Proof. done. Qed.

Lemma length_stacked_angles ci coordinates :
  angles_contract →
  length (stacked_angles ci coordinates) = length coordinates.
Proof.
  intros Hc. unfold stacked_angles. cbv zeta.
  destruct (length_center_coords coordinates) as [Hx Hy].
  destruct (Hc (center_coords coordinates).1 (center_coords coordinates).2
              (h_view_angle ci) (v_view_angle ci)) as [Hh Hv]; [congruence | ].
  rewrite length_zip. lia.
Qed.

Lemma boxes_angles_of_nonempty camera_infos i ci coordinates :
  angles_contract →
  camera_infos !! i = Some ci →
  0 < length coordinates →
  boxes_angles_of camera_infos i coordinates = Ok (stacked_angles ci coordinates).
Proof.
  intros Hc Hci Hpos. unfold boxes_angles_of, stacked_angles, index.
  rewrite bool_decide_eq_true_2 by done. cbv zeta. rewrite Hci. simpl.
  destruct (length_center_coords coordinates) as [Hx Hy].
  destruct (Hc (center_coords coordinates).1 (center_coords coordinates).2
              (h_view_angle ci) (v_view_angle ci)) as [Hh Hv]; [congruence | ].
  destruct (calculate_angles _ _ _ _) as [h_angle v_angle]. simpl in *.
  unfold np_stack_1. rewrite decide_True by congruence. done.
Qed.

(** The angles array of a view whose camera metadata is at hand. *)
Lemma boxes_angles_of_returns camera_infos i ci coordinates :
  angles_contract →
  camera_infos !! i = Some ci →
  ∃ angles, boxes_angles_of camera_infos i coordinates = Ok angles ∧
    length angles = length coordinates ∧
    (0 < length coordinates → angles = stacked_angles ci coordinates).
Proof.
  intros Hc Hci. destruct coordinates as [ | b coordinates'].
  - exists []. split; [done | ]. split; [done | ]. simpl. lia.
  - exists (stacked_angles ci (b :: coordinates')).
    split; [apply boxes_angles_of_nonempty; simpl; [done | done | lia] | ].
    split; [by apply length_stacked_angles | done].
Qed.

(** One iteration of the loop, when nothing is out of range. *)
Lemma view_record_returns args camera_infos detector_results i C d ci angles :
  panoramic_boxes args !! i = Some C →
  detector_results !! i = Some d →
  camera_infos !! i = Some ci →
  boxes_angles_of camera_infos i (Detection.boxes d) = Ok angles →
  view_record args camera_infos detector_results i =
    Ok (packaged C d angles ci).
Proof.
  intros HC Hd Hci Ha. unfold view_record, index.
  rewrite HC, Hd. simpl. rewrite Ha. simpl. rewrite Hci. done.
Qed.

Lemma view_record_no_cap args camera_infos detector_results i :
  panoramic_boxes args !! i = None →
  view_record args camera_infos detector_results i = Raise IndexError.
Proof. intros HC. unfold view_record, index. rewrite HC. done. Qed.

(** ** The loop *)

Lemma foldl_append_view_Raise args camera_infos detector_results e l :
  foldl (append_view args camera_infos detector_results) (Raise e) l = Raise e.
Proof. induction l as [ | i l IH]; [done | exact IH]. Qed.

Lemma foldl_append_view_snoc args camera_infos detector_results n :
  foldl (append_view args camera_infos detector_results) (Ok []) (seq 0 (S n)) =
  append_view args camera_infos detector_results
    (foldl (append_view args camera_infos detector_results) (Ok []) (seq 0 n)) n.
Proof. rewrite seq_S, foldl_app. done. Qed.

(** The records built by the first [n] iterations. *)
Lemma views_prefix_inv args camera_infos detector_results n records :
  foldl (append_view args camera_infos detector_results) (Ok []) (seq 0 n)
    = Ok records →
  length records = n ∧
  ∀ i, i < n → ∃ r, records !! i = Some r ∧
    view_record args camera_infos detector_results i = Ok r.
Proof.
  revert records. induction n as [ | n IH]; intros records.
  - simpl. intros [= <-]. split; [done | lia].
  - rewrite foldl_append_view_snoc. unfold append_view at 1.
    destruct (foldl _ _ (seq 0 n)) as [prefix | e]; [ | done].
    destruct (IH prefix eq_refl) as [Hlen Hrec]. simpl.
    destruct (view_record args camera_infos detector_results n) as [r | e] eqn:Hr;
      [ | done].
    simpl. intros [= <-]. split; [rewrite length_app; simpl; lia | ].
    intros i Hi. destruct (decide (i = n)) as [-> | Hne].
    + exists r. split; [ | done].
      rewrite lookup_app_r by lia. by replace (n - length prefix) with 0 by lia.
    + destruct (Hrec i) as (ri & Hri & Hvi); [lia | ].
      exists ri. split; [ | done]. by apply lookup_app_l_Some.
Qed.

Lemma views_prefix_returns args camera_infos detector_results n :
  (∀ i, i < n → ∃ r, view_record args camera_infos detector_results i = Ok r) →
  ∃ records,
    foldl (append_view args camera_infos detector_results) (Ok []) (seq 0 n)
      = Ok records.
Proof.
  induction n as [ | n IH]; intros Hall; [by exists [] | ].
  destruct IH as [prefix Hprefix]; [intros i Hi; apply Hall; lia | ].
  destruct (Hall n) as [r Hr]; [lia | ].
  exists (prefix ++ [r]).
  rewrite foldl_append_view_snoc, Hprefix. unfold append_view. simpl.
  rewrite Hr. done.
Qed.

(** The loop raises what its first failing iteration raises. *)
Lemma views_loop_raises args camera_infos detector_results i e :
  i < length detector_results →
  (∀ j, j < i → ∃ r, view_record args camera_infos detector_results j = Ok r) →
  view_record args camera_infos detector_results i = Raise e →
  views_loop args camera_infos detector_results = Raise e.
Proof.
  intros Hi Hbefore Hraise. unfold views_loop.
  replace (length detector_results) with (S i + (length detector_results - S i)) by lia.
  rewrite seq_app, foldl_app, foldl_append_view_snoc.
  destruct (views_prefix_returns args camera_infos detector_results i Hbefore)
    as [prefix ->].
  unfold append_view at 2. simpl. rewrite Hraise. simpl.
  apply foldl_append_view_Raise.
Qed.

Lemma views_loop_inv args camera_infos detector_results records :
  views_loop args camera_infos detector_results = Ok records →
  length records = length detector_results ∧
  ∀ i, i < length detector_results → ∃ r, records !! i = Some r ∧
    view_record args camera_infos detector_results i = Ok r.
Proof. apply views_prefix_inv. Qed.

(** ** The whole function *)

Lemma get_visual_features_unfold env image_loader region_detector args cuda_device :
  get_visual_features env image_loader region_detector args cuda_device =
    (calls_of env image_loader cuda_device,
     views_loop args (camera_infos_of env)
       (detector_results_of env image_loader region_detector cuda_device)).
Proof.
  unfold get_visual_features, calls_of, camera_infos_of, detector_results_of, invoke, lift.
  destruct (create_panorama env 0) as [panorama_images camera_infos]. simpl.
  destruct (image_loader panorama_images true) as [images sizes]. simpl.
  done.
Qed.
End Views.

(** [linear_angles] keeps the contract of §4.1, and so does the probe. *)
Lemma demo_angles_contract : @angles_contract demo.
Proof. intros xs ys h v Hlen. simpl. rewrite !length_fmap. lia. Qed.

Lemma probe_angles_contract : @angles_contract probe.
Proof. intros xs ys h v Hlen. simpl. lia. Qed.

(** ** Records of a run *)

Section Run.
Context `{Collaborators}.
Variables (env : Env)
  (image_loader : list Image → bool → Batch * Sizes)
  (region_detector : Batch → list Detection.t)
  (args : Args) (cuda_device : Device).

Local Abbreviation camera_infos := (camera_infos_of env).
Local Abbreviation detector_results :=
  (detector_results_of env image_loader region_detector cuda_device).
Local Abbreviation run :=
  (get_visual_features env image_loader region_detector args cuda_device).
Local Abbreviation calls := (calls_of env image_loader cuda_device).

(** When the cap table and the camera metadata cover every detection
    group, the run returns one record per group, each built from the
    group, the cap and the metadata at its index. *)
Lemma get_visual_features_returns :
  angles_contract →
  length detector_results ≤ length (panoramic_boxes args) →
  length detector_results ≤ length camera_infos →
  ∃ records,
    run = (calls, Ok records) ∧
    length records = length detector_results ∧
    ∀ i d, detector_results !! i = Some d →
      ∃ C ci angles,
        panoramic_boxes args !! i = Some C ∧
        camera_infos !! i = Some ci ∧
        boxes_angles_of camera_infos i (Detection.boxes d) = Ok angles ∧
        length angles = length (Detection.boxes d) ∧
        (0 < length (Detection.boxes d) →
           angles = stacked_angles ci (Detection.boxes d)) ∧
        view_record args camera_infos detector_results i =
          Ok (packaged C d angles ci) ∧
        records !! i =
          Some (packaged C d angles ci).
Proof.
  intros Hc Hcaps Hcams.
  assert (Hview : ∀ i d, detector_results !! i = Some d →
    ∃ C ci angles,
      panoramic_boxes args !! i = Some C ∧
      camera_infos !! i = Some ci ∧
      boxes_angles_of camera_infos i (Detection.boxes d) = Ok angles ∧
      length angles = length (Detection.boxes d) ∧
      (0 < length (Detection.boxes d) →
         angles = stacked_angles ci (Detection.boxes d)) ∧
      view_record args camera_infos detector_results i =
        Ok (packaged C d angles ci)).
  { intros i d Hd.
    assert (i < length detector_results) as Hi by (by eapply lookup_lt_Some).
    destruct (lookup_lt_is_Some_2 (panoramic_boxes args) i) as [C HC]; [lia | ].
    destruct (lookup_lt_is_Some_2 camera_infos i) as [ci Hci]; [lia | ].
    destruct (boxes_angles_of_returns camera_infos i ci (Detection.boxes d) Hc Hci)
      as (angles & Ha & Hlen & Hpos).
    exists C, ci, angles. repeat (split; [done | ]).
    by apply view_record_returns. }
  destruct (views_prefix_returns args camera_infos detector_results
              (length detector_results)) as [records Hrecords].
  { intros i Hi. destruct (lookup_lt_is_Some_2 detector_results i Hi) as [d Hd].
    destruct (Hview i d Hd) as (C & ci & angles & _ & _ & _ & _ & _ & Hr). eauto. }
  exists records. rewrite get_visual_features_unfold.
  destruct (views_loop_inv _ _ _ _ Hrecords) as [Hlen Hall].
  split; [by f_equal | ]. split; [done | ].
  intros i d Hd.
  destruct (Hview i d Hd) as (C & ci & angles & HC & Hci & Ha & Hal & Hpos & Hr).
  exists C, ci, angles. repeat (split; [done | ]).
  destruct (Hall i) as (r & Hri & Hvi); [by eapply lookup_lt_Some | ].
  rewrite Hri. f_equal. congruence.
Qed.

(** A run that returns has found a cap and camera metadata for every
    detection group. *)
Lemma get_visual_features_Ok_inv records :
  run.2 = Ok records →
  length records = length detector_results ∧
  length detector_results ≤ length (panoramic_boxes args) ∧
  length detector_results ≤ length camera_infos.
Proof.
  rewrite get_visual_features_unfold. simpl. intros Hrun.
  destruct (views_loop_inv _ _ _ _ Hrun) as [Hlen Hall].
  split; [done | ].
  assert (∀ i, i < length detector_results →
    i < length (panoramic_boxes args) ∧ i < length camera_infos) as Hlt.
  { intros i Hi. destruct (Hall i Hi) as (r & _ & Hr).
    unfold view_record, index in Hr.
    destruct (panoramic_boxes args !! i) as [C | ] eqn:HC; [ | done].
    split; [by eapply lookup_lt_Some | ].
    destruct (camera_infos !! i) as [ci | ] eqn:Hci; [by eapply lookup_lt_Some | ].
    simpl in Hr. destruct (detector_results !! i); [ | done]. simpl in Hr.
    destruct (boxes_angles_of _ _ _); done. }
  destruct (length detector_results) as [ | n]; [lia | ].
  destruct (Hlt n); lia.
Qed.
(** ** Truncation *)

(** C1. A view with [K] raw detections and cap [C >= 0] yields a record
    whose six per-object arrays all have [min K C] entries, and whose
    [num_objects] is [min K C]; the count exceeds neither the cap nor the
    number of detections. *)
Theorem kept_count_is_min i d K C :
  angles_contract →
  length detector_results ≤ length (panoramic_boxes args) →
  length detector_results ≤ length camera_infos →
  detector_results !! i = Some d →
  has_detections d K →
  panoramic_boxes args !! i = Some C →
  (0 ≤ C)%Z →
  ∃ records r,
    run = (calls, Ok records) ∧ records !! i = Some r ∧
    length (box_features r) = K `min` Z.to_nat C ∧
    length (roi_angles r) = K `min` Z.to_nat C ∧
    length (boxes r) = K `min` Z.to_nat C ∧
    length (masks r) = K `min` Z.to_nat C ∧
    length (class_probs r) = K `min` Z.to_nat C ∧
    length (class_labels r) = K `min` Z.to_nat C ∧
    num_objects r = K `min` Z.to_nat C ∧
    num_objects r ≤ K ∧ (Z.of_nat (num_objects r) ≤ C)%Z.
Proof.
  intros Hc Hcaps Hcams Hd (Hf & Hb & Hs & Hl & Hm) HC HC0.
  destruct (get_visual_features_returns Hc Hcaps Hcams)
    as (records & Hrun & _ & Hall).
  destruct (Hall i d Hd) as (C' & ci & angles & HC' & _ & _ & Hal & _ & _ & Hr).
  assert (C' = C) as -> by congruence.
  exists records, (packaged C d angles ci). split; [done | ]. split; [done | ].
  unfold packaged, binarize. simpl.
  rewrite length_fmap, !length_slice_to by done.
  rewrite Hal, Hf, Hb, Hs, Hl, Hm. repeat split; lia.
Qed.


(** C10. Whatever the number of detections, the boxes of a record are
    the first [min K C] rows of the detector's boxes, each row as the
    detector gave it. *)
Theorem boxes_pass_through i d C :
  angles_contract →
  length detector_results ≤ length (panoramic_boxes args) →
  length detector_results ≤ length camera_infos →
  detector_results !! i = Some d →
  panoramic_boxes args !! i = Some C →
  ∃ records r,
    run = (calls, Ok records) ∧ records !! i = Some r ∧
    boxes r = slice_to C (Detection.boxes d) ∧
    ((0 ≤ C)%Z →
       boxes r = take (length (Detection.boxes d) `min` Z.to_nat C) (Detection.boxes d)) ∧
    ∀ j b, boxes r !! j = Some b → Detection.boxes d !! j = Some b.
Proof.
  intros Hc Hcaps Hcams Hd HC.
  destruct (get_visual_features_returns Hc Hcaps Hcams)
    as (records & Hrun & _ & Hall).
  destruct (Hall i d Hd) as (C' & ci & angles & HC' & _ & _ & _ & _ & _ & Hr).
  assert (C' = C) as -> by congruence.
  exists records, (packaged C d angles ci). do 3 (split; [done | ]). simpl. split.
  - intros HC0. rewrite slice_to_nonneg by done.
    rewrite Nat.min_comm, <- take_take. by rewrite firstn_all.
  - intros j b Hb. rewrite <- Hb. symmetry. apply lookup_slice_to.
    by eapply lookup_lt_Some.
Qed.

(** ** Empty views *)

(** C5. A view without detections still gets a record: its six arrays
    are empty and [num_objects] is 0. *)
Theorem zero_detections_record i d :
  angles_contract →
  length detector_results ≤ length (panoramic_boxes args) →
  length detector_results ≤ length camera_infos →
  detector_results !! i = Some d →
  has_detections d 0 →
  ∃ records r ci,
    run = (calls, Ok records) ∧ records !! i = Some r ∧
    camera_infos !! i = Some ci ∧
    r = {| box_features := []; roi_angles := []; boxes := []; masks := [];
           class_probs := []; class_labels := []; camera_info := ci;
           num_objects := 0 |}.
Proof.
  intros Hc Hcaps Hcams Hd (Hf & Hb & Hs & Hl & Hm).
  destruct (get_visual_features_returns Hc Hcaps Hcams)
    as (records & Hrun & _ & Hall).
  destruct (Hall i d Hd) as (C & ci & angles & _ & Hci & _ & Hal & _ & _ & Hr).
  exists records, (packaged C d angles ci), ci. do 3 (split; [done | ]).
  rewrite Hb in Hal.
  apply nil_length_inv in Hf, Hb, Hs, Hl, Hm, Hal.
  unfold packaged. rewrite Hf, Hb, Hs, Hl, Hm, Hal, !slice_to_nil. done.
Qed.

(** ** Masks *)

(** C4. Every mask of a record is the detector's mask of the same
    detection, pixel by pixel: a pixel with raw value [v] is true exactly
    when [v > 0.5], so a pixel at 0.5 is false. *)
Theorem masks_thresholded_at_half i d C :
  angles_contract →
  length detector_results ≤ length (panoramic_boxes args) →
  length detector_results ≤ length camera_infos →
  detector_results !! i = Some d →
  panoramic_boxes args !! i = Some C →
  ∃ records r,
    run = (calls, Ok records) ∧ records !! i = Some r ∧
    length (masks r) = length (slice_to C (Detection.masks d)) ∧
    ∀ j bm, masks r !! j = Some bm →
      ∃ m, Detection.masks d !! j = Some m ∧
        ∀ row col,
          match pixel m row col with
          | Some v => ∃ b, pixel bm row col = Some b ∧
              (b = true ↔ (1 # 2 < v)%Q) ∧ ((v == 1 # 2)%Q → b = false)
          | None => pixel bm row col = None
          end.
Proof.
  intros Hc Hcaps Hcams Hd HC.
  destruct (get_visual_features_returns Hc Hcaps Hcams)
    as (records & Hrun & _ & Hall).
  destruct (Hall i d Hd) as (C' & ci & angles & HC' & _ & _ & _ & _ & _ & Hr).
  assert (C' = C) as -> by congruence.
  exists records, (packaged C d angles ci). do 2 (split; [done | ]).
  unfold packaged, binarize. simpl. split; [by rewrite length_fmap | ].
  intros j bm. rewrite list_lookup_fmap.
  destruct (slice_to C (Detection.masks d) !! j) as [m | ] eqn:Hm; [ | done].
  simpl. intros [= <-]. exists m. split.
  - rewrite <- Hm. symmetry. apply lookup_slice_to. by eapply lookup_lt_Some.
  - intros row col. unfold pixel. rewrite list_lookup_fmap.
    destruct (m !! row) as [line | ]; [ | done]. simpl.
    rewrite list_lookup_fmap. destruct (line !! col) as [v | ]; [ | done]. simpl.
    exists (gt_half v). split; [done | ].
    split; [apply gt_half_spec | apply gt_half_boundary].
Qed.

(** ** Angles *)



(** ** The run as a whole *)

(** C7. One run calls [create_panorama] once, the image loader once on
    all panorama images, and the region detector once on the packed
    batch, in this order. When the detector returns one group per view
    and the cap table covers the views, the run returns one record per
    view, in view order, the record at [i] carrying [camera_infos[i]]. *)
Theorem one_record_per_view :
  run.1 =
    [CreatePanorama env 0;
     ImageLoader (create_panorama env 0).1 true;
     RegionDetector (to (image_loader (create_panorama env 0).1 true).1 cuda_device)] ∧
  (angles_contract →
   length detector_results = length camera_infos →
   length camera_infos ≤ length (panoramic_boxes args) →
   ∃ records,
     run.2 = Ok records ∧ length records = length camera_infos ∧
     ∀ i ci, camera_infos !! i = Some ci →
       ∃ r, records !! i = Some r ∧ camera_info r = ci ∧
         view_record args camera_infos detector_results i = Ok r).
Proof.
  rewrite get_visual_features_unfold. split; [done | ].
  intros Hc Hviews Hcaps.
  destruct (get_visual_features_returns Hc) as (records & Hrun & Hlen & Hall);
    [lia | lia | ].
  rewrite get_visual_features_unfold in Hrun.
  exists records. split; [by inversion Hrun | ]. split; [lia | ].
  intros i ci Hci.
  destruct (lookup_lt_is_Some_2 detector_results i) as [d Hd];
    [rewrite Hviews; by eapply lookup_lt_Some | ].
  destruct (Hall i d Hd) as (C & ci' & angles & _ & Hci' & _ & _ & _ & Hv & Hr).
  assert (ci' = ci) as -> by congruence.
  exists (packaged C d angles ci). done.
Qed.

(** ** Failures *)

Lemma view_record_raises_IndexError i e :
  angles_contract →
  view_record args camera_infos detector_results i = Raise e → e = IndexError.
Proof.
  intros Hc. unfold view_record, index.
  destruct (panoramic_boxes args !! i) as [C | ]; [ | by intros [= <-]].
  destruct (detector_results !! i) as [d | ]; [ | by intros [= <-]].
  simpl. destruct (camera_infos !! i) as [ci | ] eqn:Hci.
  - destruct (boxes_angles_of_returns camera_infos i ci (Detection.boxes d) Hc Hci)
      as (angles & -> & _). done.
  - unfold boxes_angles_of, index. rewrite Hci.
    destruct (bool_decide _); simpl; by intros [= <-].
Qed.

(** Either the first [n] iterations all return, or one of them is the
    first to raise. *)
Lemma first_failing_view n :
  (∀ j, j < n → ∃ r, view_record args camera_infos detector_results j = Ok r) ∨
  (∃ i e, i < n ∧
     view_record args camera_infos detector_results i = Raise e ∧
     ∀ j, j < i → ∃ r, view_record args camera_infos detector_results j = Ok r).
Proof.
  induction n as [ | n [IH | (i & e & Hi & Hraise & Hbefore)]].
  - left. lia.
  - destruct (view_record args camera_infos detector_results n) as [r | e] eqn:Hn.
    + left. intros j Hj. destruct (decide (j = n)) as [-> | ]; [eauto | ].
      apply IH. lia.
    + right. exists n, e. repeat split; [lia | done | done].
  - right. exists i, e. repeat split; [lia | done | done].
Qed.

(** C9. A cap table with fewer entries than there are detection groups
    makes the run fail: no records are returned, every view beyond the
    table raises an index error, and so does the run when
    [calculate_angles] keeps its contract. *)
Theorem short_cap_table_raises :
  length (panoramic_boxes args) < length detector_results →
  ∃ e,
    run = (calls, Raise e) ∧
    (angles_contract → e = IndexError) ∧
    ∀ i, length (panoramic_boxes args) ≤ i →
      view_record args camera_infos detector_results i = Raise IndexError.
Proof.
  intros Hshort.
  assert (∀ i, length (panoramic_boxes args) ≤ i →
    view_record args camera_infos detector_results i = Raise IndexError) as Hout.
  { intros i Hi. apply view_record_no_cap. by apply lookup_ge_None_2. }
  destruct (first_failing_view (S (length (panoramic_boxes args))))
    as [Hall | (i & e & Hi & Hraise & Hbefore)].
  { destruct (Hall (length (panoramic_boxes args))) as [r Hr]; [lia | ].
    rewrite Hout in Hr by lia. done. }
  exists e. rewrite get_visual_features_unfold. split.
  - f_equal. apply (views_loop_raises _ _ _ i); [lia | done | done].
  - split; [ | done]. intros Hc. by eapply view_record_raises_IndexError.
Qed.

Lemma length_slice_to_eq {A B} stop (a : list A) (b : list B) :
  length a = length b → length (slice_to stop a) = length (slice_to stop b).
Proof.
  intros Hab. unfold slice_to. destruct (0 <=? stop)%Z;
    rewrite !length_take; lia.
Qed.

(** C6, as the code has it. The per-box arrays of a view are never
    compared with each other: whether or not their leading dimensions
    agree, the run returns, each array is cut to the cap on its own, and
    [num_objects] counts the kept feature rows. *)
Theorem arrays_truncated_independently i d C :
  angles_contract →
  length detector_results ≤ length (panoramic_boxes args) →
  length detector_results ≤ length camera_infos →
  detector_results !! i = Some d →
  panoramic_boxes args !! i = Some C →
  ∃ records r,
    run = (calls, Ok records) ∧ records !! i = Some r ∧
    box_features r = slice_to C (Detection.features d) ∧
    boxes r = slice_to C (Detection.boxes d) ∧
    masks r = binarize (slice_to C (Detection.masks d)) ∧
    class_probs r = slice_to C (Detection.scores d) ∧
    class_labels r = slice_to C (Detection.labels d) ∧
    length (roi_angles r) = length (slice_to C (Detection.boxes d)) ∧
    num_objects r = length (slice_to C (Detection.features d)).
Proof.
  intros Hc Hcaps Hcams Hd HC.
  destruct (get_visual_features_returns Hc Hcaps Hcams)
    as (records & Hrun & _ & Hall).
  destruct (Hall i d Hd) as (C' & ci & angles & HC' & _ & _ & Hal & _ & _ & Hr).
  assert (C' = C) as -> by congruence.
  exists records, (packaged C d angles ci). do 7 (split; [done | ]).
  split; [ | done]. simpl. by apply length_slice_to_eq.
Qed.
End Run.

(** * The two-view panorama, run

    The theorems above at the scenario of §8, and at its variants with
    ragged detector arrays and with a cap table that is too short. *)

Local Abbreviation demo_run :=
  (@get_visual_features demo () demo_image_loader demo_region_detector demo_args 0%Z).
Local Abbreviation demo_calls := (@calls_of demo () demo_image_loader 0%Z).
Local Abbreviation demo_camera_infos := (@camera_infos_of demo ()).
Local Abbreviation ragged_run :=
  (@get_visual_features demo () demo_image_loader ragged_region_detector demo_args 0%Z).
Local Abbreviation probe_run :=
  (@get_visual_features probe () demo_image_loader one_box_detector demo_args 0%Z).

Lemma kept_count_is_min_witness :
  ∃ records r,
    demo_run = (demo_calls, Ok records) ∧ records !! 0 = Some r ∧
    length (box_features r) = 2 ∧ length (roi_angles r) = 2 ∧
    length (boxes r) = 2 ∧ length (masks r) = 2 ∧
    length (class_probs r) = 2 ∧ length (class_labels r) = 2 ∧
    num_objects r = 2 ∧ num_objects r ≤ 3 ∧ (Z.of_nat (num_objects r) ≤ 2)%Z.
Proof.
  apply (@kept_count_is_min demo () demo_image_loader demo_region_detector
           demo_args 0%Z 0 three_detections 3 2%Z).
  - exact demo_angles_contract.
  - vm_compute. lia.
  - vm_compute. lia.
  - reflexivity.
  - vm_compute. repeat split.
  - reflexivity.
  - lia.
Defined.


Lemma boxes_pass_through_witness :
  ∃ records r,
    demo_run = (demo_calls, Ok records) ∧ records !! 0 = Some r ∧
    boxes r = slice_to 2 (Detection.boxes three_detections) ∧
    ((0 ≤ 2)%Z →
       boxes r =
         take (length (Detection.boxes three_detections) `min` Z.to_nat 2)
           (Detection.boxes three_detections)) ∧
    ∀ j b, boxes r !! j = Some b → Detection.boxes three_detections !! j = Some b.
Proof.
  apply (@boxes_pass_through demo () demo_image_loader demo_region_detector
           demo_args 0%Z 0 three_detections 2%Z).
  - exact demo_angles_contract.
  - vm_compute. lia.
  - vm_compute. lia.
  - reflexivity.
  - reflexivity.
Defined.

Lemma zero_detections_record_witness :
  ∃ records r ci,
    demo_run = (demo_calls, Ok records) ∧ records !! 1 = Some r ∧
    demo_camera_infos !! 1 = Some ci ∧
    r = {| box_features := []; roi_angles := []; boxes := []; masks := [];
           class_probs := []; class_labels := []; camera_info := ci;
           num_objects := 0 |}.
Proof.
  apply (@zero_detections_record demo () demo_image_loader demo_region_detector
           demo_args 0%Z 1 no_detections).
  - exact demo_angles_contract.
  - vm_compute. lia.
  - vm_compute. lia.
  - reflexivity.
  - vm_compute. repeat split.
Defined.

Lemma masks_thresholded_at_half_witness :
  ∃ records r,
    demo_run = (demo_calls, Ok records) ∧ records !! 0 = Some r ∧
    length (masks r) = length (slice_to 2 (Detection.masks three_detections)) ∧
    ∀ j bm, masks r !! j = Some bm →
      ∃ m, Detection.masks three_detections !! j = Some m ∧
        ∀ row col,
          match pixel m row col with
          | Some v => ∃ b, pixel bm row col = Some b ∧
              (b = true ↔ (1 # 2 < v)%Q) ∧ ((v == 1 # 2)%Q → b = false)
          | None => pixel bm row col = None
          end.
Proof.
  apply (@masks_thresholded_at_half demo () demo_image_loader demo_region_detector
           demo_args 0%Z 0 three_detections 2%Z).
  - exact demo_angles_contract.
  - vm_compute. lia.
  - vm_compute. lia.
  - reflexivity.
  - reflexivity.
Defined.



Lemma one_record_per_view_witness :
  demo_run.1 =
    [@CreatePanorama demo () 0; @ImageLoader demo [0; 1] true;
     @RegionDetector demo [0; 1]] ∧
  ∃ records,
    demo_run.2 = Ok records ∧ length records = 2 ∧
    ∀ i ci, demo_camera_infos !! i = Some ci →
      ∃ r, records !! i = Some r ∧ camera_info r = ci ∧
        @view_record demo demo_args demo_camera_infos
          (@detector_results_of demo () demo_image_loader demo_region_detector 0%Z) i
          = Ok r.
Proof.
  destruct (@one_record_per_view demo () demo_image_loader demo_region_detector
              demo_args 0%Z) as [Hcalls Hrecords].
  split; [exact Hcalls | ].
  apply Hrecords.
  - exact demo_angles_contract.
  - reflexivity.
  - vm_compute. lia.
Defined.

Lemma short_cap_table_raises_witness :
  ∃ e,
    @get_visual_features demo () demo_image_loader demo_region_detector short_args 0%Z
      = (demo_calls, Raise e) ∧
    (@angles_contract demo → e = IndexError) ∧
    ∀ i, length (panoramic_boxes short_args) ≤ i →
      @view_record demo short_args demo_camera_infos
        (@detector_results_of demo () demo_image_loader demo_region_detector 0%Z) i
        = Raise IndexError.
Proof.
  apply (@short_cap_table_raises demo () demo_image_loader demo_region_detector
           short_args 0%Z).
  vm_compute. lia.
Defined.

Lemma arrays_truncated_independently_witness :
  ∃ records r,
    ragged_run = (demo_calls, Ok records) ∧ records !! 0 = Some r ∧
    box_features r = slice_to 2 (Detection.features ragged_detections) ∧
    boxes r = slice_to 2 (Detection.boxes ragged_detections) ∧
    masks r = binarize (slice_to 2 (Detection.masks ragged_detections)) ∧
    class_probs r = slice_to 2 (Detection.scores ragged_detections) ∧
    class_labels r = slice_to 2 (Detection.labels ragged_detections) ∧
    length (roi_angles r) = length (slice_to 2 (Detection.boxes ragged_detections)) ∧
    num_objects r = length (slice_to 2 (Detection.features ragged_detections)).
Proof.
  apply (@arrays_truncated_independently demo () demo_image_loader
           ragged_region_detector demo_args 0%Z 0 ragged_detections 2%Z).
  - exact demo_angles_contract.
  - vm_compute. lia.
  - vm_compute. lia.
  - reflexivity.
  - reflexivity.
Defined.

(** View 0 of this run has two feature rows for one box, score, label and
    mask: the run raises nothing and returns a record with two feature
    rows, one box and [num_objects = 2]. *)
Lemma ragged_detections_accepted :
  @detector_results_of demo () demo_image_loader ragged_region_detector 0%Z !! 0
    = Some ragged_detections ∧
  length (Detection.features ragged_detections) = 2 ∧
  length (Detection.boxes ragged_detections) = 1 ∧
  (∀ e, ragged_run.2 ≠ Raise e) ∧
  ∃ records r,
    ragged_run = (demo_calls, Ok records) ∧ records !! 0 = Some r ∧
    length (box_features r) = 2 ∧ length (boxes r) = 1 ∧ num_objects r = 2.
Proof.
  split; [reflexivity | ]. split; [reflexivity | ]. split; [reflexivity | ].
  split; [intros e; vm_compute; discriminate | ].
  eexists _, _. split; [vm_compute; reflexivity | ].
  split; [reflexivity | ]. repeat split.
Qed.

(** * Further properties of [get_visual_features] *)

Section MoreRuns.
Context `{Collaborators}.
Variables (env : Env)
  (image_loader : list Image → bool → Batch * Sizes)
  (region_detector : Batch → list Detection.t)
  (args : Args) (cuda_device : Device).

Local Abbreviation camera_infos := (camera_infos_of env).
Local Abbreviation detector_results :=
  (detector_results_of env image_loader region_detector cuda_device).
Local Abbreviation run :=
  (get_visual_features env image_loader region_detector args cuda_device).
Local Abbreviation calls := (calls_of env image_loader cuda_device).

Lemma view_record_Ok_inv camera_infos' detector_results' args' i r :
  view_record args' camera_infos' detector_results' i = Ok r →
  ∃ C d ci angles,
    panoramic_boxes args' !! i = Some C ∧
    detector_results' !! i = Some d ∧
    camera_infos' !! i = Some ci ∧
    boxes_angles_of camera_infos' i (Detection.boxes d) = Ok angles ∧
    r = packaged C d angles ci.
Proof.
  unfold view_record, index.
  destruct (panoramic_boxes args' !! i) as [C | ]; [ | done].
  destruct (detector_results' !! i) as [d | ]; [ | done]. simpl.
  destruct (boxes_angles_of _ _ _) as [angles | ] eqn:Ha; [ | done]. simpl.
  destruct (camera_infos' !! i) as [ci | ] eqn:Hci; [ | done]. simpl.
  intros [= <-]. exists C, d, ci, angles. repeat split; done.
Qed.

(** The records of a run that returns, without any assumption on
    [calculate_angles]. *)
Lemma returned_records_are_packaged records :
  run.2 = Ok records →
  length records = length detector_results ∧
  ∀ i d, detector_results !! i = Some d →
    ∃ C ci angles,
      panoramic_boxes args !! i = Some C ∧
      camera_infos !! i = Some ci ∧
      boxes_angles_of camera_infos i (Detection.boxes d) = Ok angles ∧
      records !! i = Some (packaged C d angles ci).
Proof.
  rewrite get_visual_features_unfold. simpl. intros Hrun.
  destruct (views_loop_inv _ _ _ _ Hrun) as [Hlen Hall]. split; [done | ].
  intros i d Hd.
  destruct (Hall i) as (r & Hri & Hvi); [by eapply lookup_lt_Some | ].
  destruct (view_record_Ok_inv _ _ _ _ _ Hvi)
    as (C & d' & ci & angles & HC & Hd' & Hci & Ha & ->).
  assert (d' = d) as -> by congruence.
  by exists C, ci, angles.
Qed.

(** Whenever the call returns, whatever [calculate_angles] does: there is
    one record per detection group, the cap table and the camera metadata
    reach every group, and each record carries the metadata of its view,
    independently cut arrays and the number of kept feature rows. *)
Theorem returned_record_invariants records :
  run.2 = Ok records →
  length records = length detector_results ∧
  length detector_results ≤ length (panoramic_boxes args) ∧
  length detector_results ≤ length camera_infos ∧
  ∀ i r, records !! i = Some r →
    ∃ d C ci,
      detector_results !! i = Some d ∧
      panoramic_boxes args !! i = Some C ∧
      camera_infos !! i = Some ci ∧
      camera_info r = ci ∧
      num_objects r = length (box_features r) ∧
      box_features r = slice_to C (Detection.features d) ∧
      boxes r = slice_to C (Detection.boxes d) ∧
      masks r = binarize (slice_to C (Detection.masks d)) ∧
      class_probs r = slice_to C (Detection.scores d) ∧
      class_labels r = slice_to C (Detection.labels d).
Proof.
  intros Hrun.
  destruct (returned_records_are_packaged records Hrun) as [Hlen Hall].
  destruct (get_visual_features_Ok_inv _ _ _ _ _ _ Hrun) as (_ & Hcaps & Hcams).
  do 3 (split; [done | ]).
  intros i r Hr.
  destruct (lookup_lt_is_Some_2 detector_results i) as [d Hd];
    [rewrite <- Hlen; by eapply lookup_lt_Some | ].
  destruct (Hall i d Hd) as (C & ci & angles & HC & Hci & Ha & Hri).
  assert (r = packaged C d angles ci) as -> by congruence.
  exists d, C, ci. do 9 (split; [done | ]). done.
Qed.

(** A negative cap is not rejected: as a slice bound it drops the last
    [-C] detections, so [K - (-C)] of them are kept (none when [-C]
    exceeds [K]). *)
Theorem negative_cap_drops_from_the_end i d K C :
  angles_contract →
  length detector_results ≤ length (panoramic_boxes args) →
  length detector_results ≤ length camera_infos →
  detector_results !! i = Some d →
  has_detections d K →
  panoramic_boxes args !! i = Some C →
  (C < 0)%Z →
  ∃ records r,
    run = (calls, Ok records) ∧ records !! i = Some r ∧
    num_objects r = K - Z.to_nat (- C) ∧
    box_features r = take (K - Z.to_nat (- C)) (Detection.features d) ∧
    boxes r = take (K - Z.to_nat (- C)) (Detection.boxes d) ∧
    masks r = take (K - Z.to_nat (- C)) (binarize (Detection.masks d)) ∧
    class_probs r = take (K - Z.to_nat (- C)) (Detection.scores d) ∧
    class_labels r = take (K - Z.to_nat (- C)) (Detection.labels d) ∧
    length (roi_angles r) = K - Z.to_nat (- C).
Proof.
  intros Hc Hcaps Hcams Hd (Hf & Hb & Hs & Hl & Hm) HC HC0.
  destruct (get_visual_features_returns _ _ _ _ _ Hc Hcaps Hcams)
    as (records & Hrun & _ & Hall).
  destruct (Hall i d Hd) as (C' & ci & angles & HC' & _ & _ & Hal & _ & _ & Hr).
  assert (C' = C) as -> by congruence.
  exists records, (packaged C d angles ci). do 2 (split; [done | ]).
  unfold packaged, binarize, slice_to. simpl.
  destruct (Z.leb_spec 0 C) as [ | _]; [lia | ].
  rewrite Hf, Hb, Hs, Hl, Hm, Hal, Hb, fmap_take, !length_take.
  repeat split; try done; lia.
Qed.

(** A cap at or above the number of detections keeps every detection:
    nothing is padded, and the arrays are the detector's own (the masks
    binarized). *)
Theorem cap_above_count_keeps_all i d K C :
  angles_contract →
  length detector_results ≤ length (panoramic_boxes args) →
  length detector_results ≤ length camera_infos →
  detector_results !! i = Some d →
  has_detections d K →
  panoramic_boxes args !! i = Some C →
  (Z.of_nat K ≤ C)%Z →
  ∃ records r ci,
    run = (calls, Ok records) ∧ records !! i = Some r ∧
    camera_infos !! i = Some ci ∧
    num_objects r = K ∧
    box_features r = Detection.features d ∧
    boxes r = Detection.boxes d ∧
    masks r = binarize (Detection.masks d) ∧
    class_probs r = Detection.scores d ∧
    class_labels r = Detection.labels d ∧
    length (roi_angles r) = K ∧
    (0 < K → roi_angles r = stacked_angles ci (Detection.boxes d)).
Proof.
  intros Hc Hcaps Hcams Hd (Hf & Hb & Hs & Hl & Hm) HC HCK.
  destruct (get_visual_features_returns _ _ _ _ _ Hc Hcaps Hcams)
    as (records & Hrun & _ & Hall).
  destruct (Hall i d Hd) as (C' & ci & angles & HC' & Hci & _ & Hal & Hpos & _ & Hr).
  assert (C' = C) as -> by congruence.
  exists records, (packaged C d angles ci), ci. do 3 (split; [done | ]).
  unfold packaged. simpl. rewrite !slice_to_all by lia.
  split; [done | ]. do 5 (split; [done | ]). split; [lia | ].
  intros HK. apply Hpos. lia.
Qed.

(** Raising the cap of a view only appends: with caps [0 <= C <= C'] the
    arrays of the record under [C] are the first [C] entries of the arrays
    of the record under [C']. *)
Theorem larger_cap_extends_record (args' : Args) records records' i C C' r r' :
  run.2 = Ok records →
  (get_visual_features env image_loader region_detector args' cuda_device).2
    = Ok records' →
  panoramic_boxes args !! i = Some C →
  panoramic_boxes args' !! i = Some C' →
  (0 ≤ C ≤ C')%Z →
  records !! i = Some r →
  records' !! i = Some r' →
  box_features r = take (Z.to_nat C) (box_features r') ∧
  roi_angles r = take (Z.to_nat C) (roi_angles r') ∧
  boxes r = take (Z.to_nat C) (boxes r') ∧
  masks r = take (Z.to_nat C) (masks r') ∧
  class_probs r = take (Z.to_nat C) (class_probs r') ∧
  class_labels r = take (Z.to_nat C) (class_labels r') ∧
  camera_info r = camera_info r' ∧
  num_objects r ≤ num_objects r'.
Proof.
  intros Hrun Hrun' HC HC' HCC Hr Hr'.
  destruct (returned_records_are_packaged records Hrun) as [Hlen Hall].
  rewrite get_visual_features_unfold in Hrun'. simpl in Hrun'.
  destruct (views_loop_inv _ _ _ _ Hrun') as [Hlen' Hall'].
  destruct (lookup_lt_is_Some_2 detector_results i) as [d Hd];
    [rewrite <- Hlen; by eapply lookup_lt_Some | ].
  destruct (Hall i d Hd) as (C0 & ci & angles & HC0 & Hci & Ha & Hri).
  destruct (Hall' i) as (r0 & Hr0 & Hv0); [by eapply lookup_lt_Some | ].
  destruct (view_record_Ok_inv _ _ _ _ _ Hv0)
    as (C1 & d1 & ci1 & angles1 & HC1 & Hd1 & Hci1 & Ha1 & ->).
  assert (C0 = C) as -> by congruence.
  assert (C1 = C') as -> by congruence.
  assert (d1 = d) as -> by congruence.
  assert (ci1 = ci) as -> by congruence.
  assert (angles1 = angles) as -> by congruence.
  assert (r = packaged C d angles ci) as -> by congruence.
  assert (r' = packaged C' d angles ci) as -> by congruence.
  unfold packaged, binarize. simpl. rewrite !slice_to_nonneg by lia.
  rewrite <- fmap_take, !take_take, !length_take.
  replace (Z.to_nat C `min` Z.to_nat C') with (Z.to_nat C) by lia.
  repeat split; try done; lia.
Qed.

(** Views without boxes never reach [calculate_angles]: when no view has
    a box the call returns whatever [calculate_angles] would do, and every
    record has empty angles and boxes. *)
Theorem views_without_boxes_need_no_angles :
  (∀ i d, detector_results !! i = Some d → Detection.boxes d = []) →
  length detector_results ≤ length (panoramic_boxes args) →
  length detector_results ≤ length camera_infos →
  ∃ records,
    get_visual_features env image_loader region_detector args cuda_device
      = (calls_of env image_loader cuda_device, Ok records) ∧
    length records = length detector_results ∧
    ∀ i r, records !! i = Some r → roi_angles r = [] ∧ boxes r = [].
Proof.
  intros Hempty Hcaps Hcams.
  assert (∀ i d, detector_results !! i = Some d →
    ∃ C ci, view_record args camera_infos detector_results i
            = Ok (packaged C d [] ci)) as Hview.
  { intros i d Hd.
    assert (i < length detector_results) as Hi by (by eapply lookup_lt_Some).
    destruct (lookup_lt_is_Some_2 (panoramic_boxes args) i) as [C HC]; [lia | ].
    destruct (lookup_lt_is_Some_2 camera_infos i) as [ci Hci]; [lia | ].
    exists C, ci. apply view_record_returns; [done | done | done | ].
    rewrite (Hempty i d Hd). apply boxes_angles_of_empty. }
  destruct (views_prefix_returns args camera_infos detector_results
              (length detector_results)) as [records Hrecords].
  { intros i Hi. destruct (lookup_lt_is_Some_2 detector_results i Hi) as [d Hd].
    destruct (Hview i d Hd) as (C & ci & Hv). eauto. }
  exists records. rewrite get_visual_features_unfold.
  destruct (views_loop_inv _ _ _ _ Hrecords) as [Hlen Hall].
  split; [by f_equal | ]. split; [done | ].
  intros i r Hr.
  assert (i < length detector_results) as Hi
    by (rewrite <- Hlen; by eapply lookup_lt_Some).
  destruct (lookup_lt_is_Some_2 detector_results i Hi) as [d Hd].
  destruct (Hview i d Hd) as (C & ci & Hv).
  destruct (Hall i Hi) as (r' & Hr' & Hv').
  assert (r = packaged C d [] ci) as -> by congruence.
  simpl. rewrite (Hempty i d Hd), !slice_to_nil. done.
Qed.

(** ** Which exception *)

(** The call raises exactly what its first failing view raises. *)
Theorem run_raises_what_first_failing_view_raises e :
  run.2 = Raise e ↔
  ∃ i, i < length detector_results ∧
    view_record args camera_infos detector_results i = Raise e ∧
    ∀ j, j < i → ∃ r, view_record args camera_infos detector_results j = Ok r.
Proof.
  rewrite get_visual_features_unfold. simpl. split.
  - intros Hrun.
    destruct (first_failing_view env image_loader region_detector args cuda_device
                (length detector_results)) as [Hall | (i & e' & Hi & Hraise & Hbefore)].
    + destruct (views_prefix_returns _ _ _ _ Hall) as [records Hrecords].
      unfold views_loop in Hrun. congruence.
    + exists i. split; [done | ].
      pose proof (views_loop_raises _ _ _ i e' Hi Hbefore Hraise) as Hrun'.
      assert (e' = e) as -> by congruence. done.
  - intros (i & Hi & Hraise & Hbefore). by eapply views_loop_raises.
Qed.

(** Camera metadata for fewer views than there are detection groups makes
    the call fail, even when the views beyond have no detections. *)
Theorem short_camera_metadata_raises :
  length camera_infos < length detector_results →
  ∃ e, run = (calls, Raise e) ∧ (angles_contract → e = IndexError).
Proof.
  intros Hshort.
  destruct (first_failing_view env image_loader region_detector args cuda_device
              (S (length camera_infos))) as [Hall | (i & e & Hi & Hraise & Hbefore)].
  { destruct (Hall (length camera_infos)) as [r Hr]; [lia | ].
    destruct (view_record_Ok_inv _ _ _ _ _ Hr)
      as (C & d & ci & angles & _ & _ & Hci & _).
    apply lookup_lt_Some in Hci. lia. }
  exists e. rewrite get_visual_features_unfold. split.
  - f_equal. apply (views_loop_raises _ _ _ i); [lia | done | done].
  - intros Hc. by eapply view_record_raises_IndexError.
Qed.

(** When [calculate_angles] returns two sequences of different lengths
    for the first view that fails, the call raises the [ValueError] of
    [np.stack]. *)
Theorem unequal_angle_sequences_raise_ValueError i d C ci :
  panoramic_boxes args !! i = Some C →
  detector_results !! i = Some d →
  camera_infos !! i = Some ci →
  0 < length (Detection.boxes d) →
  length (calculate_angles (center_coords (Detection.boxes d)).1
            (center_coords (Detection.boxes d)).2
            (h_view_angle ci) (v_view_angle ci)).1 ≠
  length (calculate_angles (center_coords (Detection.boxes d)).1
            (center_coords (Detection.boxes d)).2
            (h_view_angle ci) (v_view_angle ci)).2 →
  (∀ j, j < i → ∃ r, view_record args camera_infos detector_results j = Ok r) →
  run = (calls, Raise ValueError).
Proof.
  intros HC Hd Hci Hpos Hne Hbefore.
  rewrite get_visual_features_unfold. f_equal.
  apply (views_loop_raises _ _ _ i); [by eapply lookup_lt_Some | done | ].
  unfold view_record, index. rewrite HC, Hd. simpl.
  unfold boxes_angles_of, index. rewrite bool_decide_eq_true_2 by done.
  cbv zeta. rewrite Hci. simpl.
  destruct (calculate_angles _ _ _ _) as [h_angle v_angle]. simpl in Hne.
  unfold np_stack_1. rewrite decide_False by done. done.
Qed.
End MoreRuns.

(** * The task queue *)

Section QueueProperties.
Context `{Random} {Traj : Type}.
Implicit Types (splits : gmap string (list Traj)) (args : RunArgs) (g : Rng)
  (files task_queue : list Traj).

Lemma foldl_put task_queue files :
  foldl (λ task_queue traj, task_queue ++ [traj]) task_queue files
    = task_queue ++ files.
Proof.
  revert task_queue. induction files as [ | traj files IH]; intros task_queue; simpl.
  - by rewrite app_nil_r.
  - rewrite IH, <- app_assoc. done.
Qed.

(** What [queue_tasks] returns when the split exists. *)
Lemma queue_tasks_unfold splits args g files :
  splits !! eval_split args = Some files →
  queue_tasks splits args g =
    let chosen := if fast_epoch args then take 16 files else files in
    if shuffle args then
      Py.Return ((random_shuffle g chosen).1,
                 (if fast_epoch args then splits
                  else <[eval_split args := (random_shuffle g chosen).1]> splits),
                 (random_shuffle g chosen).2)
    else Py.Return (chosen, splits, g).
Proof.
  intros Hfiles. unfold queue_tasks. rewrite Hfiles. cbv zeta.
  destruct (fast_epoch args), (shuffle args); simpl; rewrite ?Hfiles; simpl.
  - unfold shuffle_in_place. simpl.
    destruct (random_shuffle g _) as [shuffled g']. simpl. by rewrite foldl_put.
  - by rewrite foldl_put.
  - unfold shuffle_in_place. simpl. rewrite Hfiles. simpl.
    destruct (random_shuffle g files) as [shuffled g']. simpl.
    rewrite lookup_insert_eq. simpl. by rewrite foldl_put.
  - by rewrite foldl_put.
Qed.

(** The queue holds the files of the evaluated split, each as often as the
    split has it: all of them, or the first 16 in a fast epoch. Shuffling
    never brings in a file from beyond the sixteenth. *)
Theorem queue_holds_the_chosen_files splits args g files :
  shuffle_contract →
  splits !! eval_split args = Some files →
  ∃ task_queue splits' g',
    queue_tasks splits args g = Py.Return (task_queue, splits', g') ∧
    task_queue ≡ₚ (if fast_epoch args then take 16 files else files) ∧
    length task_queue =
      (if fast_epoch args then 16 `min` length files else length files).
Proof.
  intros Hshuffle Hfiles. rewrite (queue_tasks_unfold _ _ _ _ Hfiles). cbv zeta.
  assert (length (if fast_epoch args then take 16 files else files) =
          (if fast_epoch args then 16 `min` length files else length files)) as Hlen.
  { destruct (fast_epoch args); [apply length_take | done]. }
  destruct (shuffle args).
  - eexists _, _, _. split; [done | ]. simpl.
    pose proof (Hshuffle Traj g (if fast_epoch args then take 16 files else files))
      as Hperm.
    split; [done | ]. by rewrite Hperm.
  - eexists _, _, _. split; [done | ]. done.
Qed.

(** Without shuffling the queue is in file order, the splits are as they
    were, and the generator is not used. *)
Theorem unshuffled_queue_keeps_file_order splits args g files :
  shuffle args = false →
  splits !! eval_split args = Some files →
  queue_tasks splits args g =
    Py.Return (if fast_epoch args then take 16 files else files, splits, g).
Proof.
  intros Hno Hfiles. rewrite (queue_tasks_unfold _ _ _ _ Hfiles), Hno. done.
Qed.

(** Shuffling reorders the list kept in [self.splits] itself, which then
    reads in queue order; in a fast epoch the shuffled list is a copy and
    [self.splits] stays as it was. No other split is touched. *)
Theorem shuffle_reorders_the_stored_split splits args g files :
  splits !! eval_split args = Some files →
  ∃ task_queue splits' g',
    queue_tasks splits args g = Py.Return (task_queue, splits', g') ∧
    splits' =
      (if shuffle args && negb (fast_epoch args)
       then <[eval_split args := task_queue]> splits else splits) ∧
    (shuffle args = true → fast_epoch args = false →
       splits' !! eval_split args = Some task_queue) ∧
    (fast_epoch args = true → splits' = splits) ∧
    ∀ name, name ≠ eval_split args → splits' !! name = splits !! name.
Proof.
  intros Hfiles. rewrite (queue_tasks_unfold _ _ _ _ Hfiles). cbv zeta.
  destruct (shuffle args), (fast_epoch args); simpl;
    eexists _, _, _; (split; [done | ]); (split; [done | ]);
    repeat split; try done.
  - intros _ _. apply lookup_insert_eq.
  - intros name Hname. by apply lookup_insert_ne.
Qed.

(** ** Workers *)

Lemma foldl_start task_queue threads started ns :
  foldl (λ '(threads, log) n,
           (threads ++ [n], log ++ [ProcessStart n task_queue]))
        (threads, started) ns
  = (threads ++ ns, started ++ ((λ n, ProcessStart n task_queue) <$> ns)).
Proof.
  revert threads started.
  induction ns as [ | n ns IH]; intros threads started; simpl.
  - by rewrite !app_nil_r.
  - rewrite IH, <- !app_assoc. done.
Qed.

(** With one thread the evaluation runs in the calling process, and a
    failure of [run] leaves before [save_results] is called. *)
Theorem single_worker_runs_in_caller run save_results splits args g
    task_queue splits' g' :
  num_threads args = 1%Z →
  queue_tasks splits args g = Py.Return (task_queue, splits', g') →
  spawn_threads run save_results splits args g =
    match run task_queue with
    | Py.Throw e => ([NewLock; RunHere task_queue], Py.Throw e)
    | Py.Return _ =>
        ([NewLock; RunHere task_queue; SaveResults],
         match save_results with
         | Py.Return _ => Py.Return (splits', g')
         | Py.Throw e => Py.Throw e
         end)
    end.
Proof.
  intros Hone Hqueue. unfold spawn_threads, pure, emit. rewrite Hqueue. simpl.
  rewrite bool_decide_eq_true_2 by done. simpl.
  destruct (run task_queue) as [[] | e]; simpl; [ | done].
  destruct save_results as [[] | e]; done.
Qed.

(** With any other number of threads the caller starts that many workers
    on the one queue, joins them in the order started, and then calls
    [save_results]: whatever [run] would do in the caller is not seen. For
    a number below one no worker is started and the results are saved all
    the same. *)
Theorem workers_started_then_joined run save_results splits args g
    task_queue splits' g' :
  num_threads args ≠ 1%Z →
  queue_tasks splits args g = Py.Return (task_queue, splits', g') →
  spawn_threads run save_results splits args g =
    ([NewLock]
       ++ ((λ n, ProcessStart n task_queue) <$> seq 0 (Z.to_nat (num_threads args)))
       ++ (ProcessJoin <$> seq 0 (Z.to_nat (num_threads args)))
       ++ [SaveResults],
     match save_results with
     | Py.Return _ => Py.Return (splits', g')
     | Py.Throw e => Py.Throw e
     end) ∧
  ((num_threads args ≤ 0)%Z →
     (spawn_threads run save_results splits args g).1 = [NewLock; SaveResults]).
Proof.
  intros Hmany Hqueue.
  assert (spawn_threads run save_results splits args g =
    ([NewLock]
       ++ ((λ n, ProcessStart n task_queue) <$> seq 0 (Z.to_nat (num_threads args)))
       ++ (ProcessJoin <$> seq 0 (Z.to_nat (num_threads args)))
       ++ [SaveResults],
     match save_results with
     | Py.Return _ => Py.Return (splits', g')
     | Py.Throw e => Py.Throw e
     end)) as Hrun.
  { unfold spawn_threads, pure, emit. rewrite Hqueue. simpl.
    rewrite bool_decide_eq_false_2 by done. rewrite foldl_start. simpl.
    destruct save_results as [[] | e]; simpl; rewrite ?app_nil_r, <- ?app_assoc; done. }
  split; [done | ]. intros Hnone. rewrite Hrun. simpl.
  replace (Z.to_nat (num_threads args)) with 0 by lia. done.
Qed.

(** A split that is not in [self.splits] stops everything with a
    [KeyError]: no lock, no worker, no saved results. *)
Theorem missing_split_stops_before_any_work run save_results splits args g :
  splits !! eval_split args = None →
  queue_tasks splits args g = Py.Throw (Py.KeyError (Py.Str (eval_split args))) ∧
  spawn_threads run save_results splits args g =
    ([], Py.Throw (Py.KeyError (Py.Str (eval_split args)))).
Proof.
  intros Hnone.
  assert (queue_tasks splits args g
          = Py.Throw (Py.KeyError (Py.Str (eval_split args)))) as Hqueue.
  { unfold queue_tasks. by rewrite Hnone. }
  split; [done | ]. unfold spawn_threads, pure. by rewrite Hqueue.
Qed.
End QueueProperties.

(** * Scene setup *)

Lemma py_index_from_end {A} (l : list A) (i : Z) :
  (- Z.of_nat (length l) ≤ i < 0)%Z →
  py_index l i = py_index l (i + Z.of_nat (length l)).
Proof.
  intros Hi. unfold py_index. cbv zeta.
  rewrite (proj2 (Z.ltb_lt i 0)) by lia.
  rewrite (proj2 (Z.ltb_ge (i + Z.of_nat (length l)) 0)) by lia. cbv iota.
  rewrite (proj2 (Z.ltb_ge (i + Z.of_nat (length l)) 0)) by lia. done.
Qed.

Lemma py_index_out_of_range {A} (l : list A) (i : Z) :
  (Z.of_nat (length l) ≤ i ∨ i < - Z.of_nat (length l))%Z →
  py_index l i = Py.Throw Py.IndexError.
Proof.
  intros Hi. unfold py_index. cbv zeta.
  destruct (Z.ltb_spec i 0) as [Hneg | Hpos].
  - rewrite (proj2 (Z.ltb_lt (i + Z.of_nat (length l)) 0)) by lia. done.
  - rewrite (proj2 (Z.ltb_ge i 0)) by lia.
    rewrite lookup_ge_None_2 by lia. done.
Qed.

Section SceneProperties.
Context `{Builtins} {ArgsT : Type}.
Implicit Types (td sc ta ann act : gmap string json) (anns : list json)
  (args : ArgsT) (r_idx : Z).


(** A scene that lacks one of the four keys read first makes the call
    raise a [KeyError] before the environment is touched. *)
Theorem missing_scene_key_leaves_env_untouched td sc k r_idx args reward_type :
  td !! "scene" = Some (JDict sc) →
  k ∈ ["scene_num"; "object_poses"; "dirty_and_empty"; "object_toggles"] →
  sc !! k = None →
  ∃ k', sc !! k' = None ∧
    setup_scene (JDict td) r_idx args reward_type
      = ([], Py.Throw (Py.KeyError (Py.Str k'))).
Proof.
  intros Hsc Hk Hnone.
  unfold setup_scene, get, pure, emit. simpl. rewrite Hsc. simpl.
  destruct (sc !! "scene_num") as [num | ] eqn:Hnum; [ | by exists "scene_num"].
  destruct (sc !! "object_poses") as [poses | ] eqn:Hposes;
    [ | by exists "object_poses"].
  destruct (sc !! "dirty_and_empty") as [dirty | ] eqn:Hdirty;
    [ | by exists "dirty_and_empty"].
  destruct (sc !! "object_toggles") as [toggles | ] eqn:Htoggles;
    [ | by exists "object_toggles"].
  set_unfold. destruct Hk as [-> | [-> | [-> | [-> | []]]]]; congruence.
Qed.

(** An annotation index out of range is found only after the scene has
    been reset, restored and stepped: the call raises [IndexError], and
    [set_task] is not reached. *)
Theorem bad_annotation_index_found_after_step td sc ta anns act n poses dirty
    toggles r_idx args reward_type :
  dict_contract →
  td !! "scene" = Some (JDict sc) →
  sc !! "scene_num" = Some (JInt n) →
  sc !! "object_poses" = Some poses →
  sc !! "dirty_and_empty" = Some dirty →
  sc !! "object_toggles" = Some toggles →
  sc !! "init_action" = Some (JDict act) →
  td !! "turk_annotations" = Some (JDict ta) →
  ta !! "anns" = Some (JList anns) →
  (Z.of_nat (length anns) ≤ r_idx ∨ r_idx < - Z.of_nat (length anns))%Z →
  setup_scene (JDict td) r_idx args reward_type =
    ([Reset ("FloorPlan" +:+ pretty n);
      RestoreScene poses toggles dirty;
      Step (JDict act)],
     Py.Throw Py.IndexError).
Proof.
  intros Hdict Hsc Hnum Hposes Hdirty Htoggles Hact Hta Hanns Hrange.
  unfold setup_scene, get, pure, emit. simpl.
  rewrite Hsc. simpl. rewrite Hnum, Hposes, Hdirty, Htoggles, Hact. simpl.
  rewrite Hdict. simpl. rewrite Hta. simpl. rewrite Hanns. simpl.
  rewrite (py_index_out_of_range anns r_idx Hrange). done.
Qed.

(** A negative [r_idx] counts annotations from the last one: the call
    does exactly what it does for [r_idx + len(anns)]. *)
Theorem negative_r_idx_counts_from_the_end traj_data anns r_idx args reward_type :
  (turk_annotations ← get traj_data "turk_annotations";
   get turk_annotations "anns") = Py.Return (JList anns) →
  (- Z.of_nat (length anns) ≤ r_idx < 0)%Z →
  setup_scene traj_data r_idx args reward_type =
  setup_scene traj_data (r_idx + Z.of_nat (length anns)) args reward_type.
Proof.
  intros Hanns Hneg. unfold setup_scene.
  assert (∀ i,
    (turk_annotations ← get traj_data "turk_annotations";
     anns ← get turk_annotations "anns";
     ann ← subscript anns (Py.Int i);
     get ann "task_desc")
    = (ann ← py_index anns i; get ann "task_desc")) as Hdesc.
  { intros i. destruct (get traj_data "turk_annotations") as [turk | e]; [ | done].
    simpl in *. rewrite Hanns. done. }
  rewrite !Hdesc, (py_index_from_end anns r_idx Hneg). done.
Qed.
End SceneProperties.

(** * The output directory *)

Section PathProperties.
Context {char : Type} `{EqDecision char}.
Implicit Types (sep slash : char) (s old new pre dir base : list char).

Lemma str_split_nonempty sep s : str_split sep s ≠ [].
Proof.
  destruct s as [ | c s]; simpl; [done | ].
  destruct (decide (c = sep)); [done | ]. by destruct (str_split sep s).
Qed.

Lemma str_split_without_sep sep s : sep ∉ s → str_split sep s = [s].
Proof.
  induction s as [ | c s IH]; intros Hnot; simpl; [done | ].
  apply not_elem_of_cons in Hnot as [Hc Hs].
  rewrite decide_False by done. by rewrite IH.
Qed.

Lemma last_cons_nonempty {A} (x : A) (l : list A) : l ≠ [] → last (x :: l) = last l.
Proof. by destruct l. Qed.

Lemma str_split_two_parts sep s :
  sep ∈ s → ∃ part part' parts, str_split sep s = part :: part' :: parts.
Proof.
  induction s as [ | c s IH]; intros Hin; [by apply elem_of_nil in Hin | ].
  simpl. destruct (decide (c = sep)) as [-> | Hne].
  - destruct (str_split sep s) as [ | part' parts] eqn:Hsplit;
      [by apply str_split_nonempty in Hsplit | eauto].
  - apply elem_of_cons in Hin as [-> | Hin]; [done | ].
    destruct (IH Hin) as (part & part' & parts & ->). eauto.
Qed.

(** The last part of a split is what follows the last separator. *)
Lemma last_str_split_app sep pre base :
  sep ∉ base → last (str_split sep (pre ++ sep :: base)) = Some base.
Proof.
  intros Hbase. induction pre as [ | c pre IH]; simpl.
  - rewrite decide_True by done. by rewrite str_split_without_sep.
  - destruct (decide (c = sep)).
    + rewrite last_cons_nonempty by apply str_split_nonempty. done.
    + destruct (str_split_two_parts sep (pre ++ sep :: base))
        as (part & part' & parts & Hsplit).
      { apply elem_of_app. right. apply list_elem_of_here. }
      rewrite Hsplit in IH |- *. done.
Qed.

Lemma py_index_last {A} (l : list A) (x : A) :
  last l = Some x → py_index l (-1) = Py.Return x.
Proof.
  intros Hlast. unfold py_index. cbv zeta.
  destruct l as [ | y l] using rev_ind; [done | ].
  rewrite last_snoc in Hlast. injection Hlast as ->.
  clear IHl. rewrite length_app. simpl.
  rewrite (proj2 (Z.ltb_ge (-1 + Z.of_nat (length l + 1)) 0)) by lia.
  replace (Z.to_nat (-1 + Z.of_nat (length l + 1))) with (length l) by lia.
  by rewrite list_lookup_middle.
Qed.

Lemma replace_from_skips_all old new s skip :
  length s ≤ skip → replace_from old new s skip = [].
Proof.
  revert skip. induction s as [ | c s IH]; intros skip Hlen; simpl; [done | ].
  simpl in Hlen. destruct skip as [ | skip]; [lia | ]. apply IH. lia.
Qed.

Lemma replace_from_skips old new s s' :
  replace_from old new (s ++ s') (length s) = replace_from old new s' 0.
Proof. induction s as [ | c s IH]; simpl; [by destruct s' | done]. Qed.

(** The scan up to the only occurrence of [old], which ends the string. *)
Lemma replace_from_only_at_end old new pre :
  old ≠ [] →
  (∀ k, k < length pre → ¬ old `prefix_of` drop k (pre ++ old)) →
  replace_from old new (pre ++ old) 0 = pre ++ new.
Proof.
  intros Hold. induction pre as [ | c pre IH]; intros Hfree; simpl.
  - destruct old as [ | c old]; [done | ]. simpl.
    rewrite bool_decide_eq_true_2 by done.
    rewrite replace_from_skips_all by (simpl; lia). by rewrite app_nil_r.
  - rewrite bool_decide_eq_false_2 by (apply (Hfree 0); simpl; lia).
    f_equal. apply IH. intros k Hk. apply (Hfree (S k)). simpl. lia.
Qed.

Lemma str_replace_nonempty old new s :
  old ≠ [] → str_replace old new s = replace_from old new s 0.
Proof. by destruct old. Qed.

Lemma concat_singletons s : concat ((λ c, [c]) <$> s) = s.
Proof. induction s as [ | c s IH]; simpl; [done | f_equal; exact IH]. Qed.

(** A path without a slash is its own last component: nothing is left. *)
Theorem dout_of_bare_name slash model_path :
  slash ∉ model_path → dout_of slash model_path = Py.Return [].
Proof.
  intros Hbare. unfold dout_of.
  rewrite str_split_without_sep by done. simpl.
  destruct model_path as [ | c s]; [done | ]. simpl.
  rewrite bool_decide_eq_true_2 by done.
  rewrite replace_from_skips_all by (simpl; lia). done.
Qed.

(** A path that ends with a slash has an empty last component, and
    removing the empty string changes nothing: the path comes back whole. *)
Theorem dout_of_trailing_slash slash dir :
  dout_of slash (dir ++ [slash]) = Py.Return (dir ++ [slash]).
Proof.
  unfold dout_of.
  rewrite (py_index_last _ []) by (apply last_str_split_app; apply not_elem_of_nil).
  simpl. by rewrite concat_singletons.
Qed.

(** When the file name occurs in the path only as its last component,
    the result is the directory with its trailing slash. *)
Theorem dout_of_strips_the_file_name slash dir base :
  base ≠ [] →
  slash ∉ base →
  (∀ k, k ≤ length dir →
     ¬ base `prefix_of` drop k (dir ++ slash :: base)) →
  dout_of slash (dir ++ slash :: base) = Py.Return (dir ++ [slash]).
Proof.
  intros Hbase Hslash Hfree. unfold dout_of.
  rewrite (py_index_last _ base) by (by apply last_str_split_app).
  simpl. rewrite str_replace_nonempty by done.
  replace (dir ++ slash :: base) with ((dir ++ [slash]) ++ base)
    by (by rewrite <- app_assoc).
  rewrite replace_from_only_at_end; [by rewrite app_nil_r | done | ].
  intros k Hk. rewrite <- app_assoc. simpl. apply Hfree.
  rewrite length_app in Hk. simpl in Hk. lia.
Qed.

(** Every occurrence of the file name goes, not only the last: for a
    file in a directory of the same name only the slash is left. *)
Theorem dout_of_loses_a_directory_named_like_the_file slash base :
  base ≠ [] →
  slash ∉ base →
  dout_of slash (base ++ slash :: base) = Py.Return [slash].
Proof.
  intros Hbase Hslash. unfold dout_of.
  rewrite (py_index_last _ base) by (by apply last_str_split_app).
  simpl. destruct base as [ | b base']; [done | ].
  unfold str_replace.
  change ((b :: base') ++ slash :: b :: base')
    with (b :: (base' ++ slash :: b :: base')).
  simpl replace_from at 1.
  rewrite bool_decide_eq_true_2 by (by apply prefix_cons, prefix_app_r).
  simpl. rewrite Nat.sub_0_r, replace_from_skips. simpl.
  rewrite bool_decide_eq_false_2.
  - f_equal. f_equal. rewrite bool_decide_eq_true_2 by done.
    by rewrite replace_from_skips_all by (simpl; lia).
  - intros [rest Hrest]. simpl in Hrest. injection Hrest as -> _.
    apply Hslash. apply list_elem_of_here.
Qed.
End PathProperties.

(** * The further properties, run *)

Lemma reversing_shuffle_contract : @shuffle_contract reversing.
Proof. intros A g x. simpl. apply reverse_Permutation. Qed.

Lemma dict_of_dict_contract : @dict_contract dict_of_dict.
Proof. intros m. done. Qed.

Lemma returned_record_invariants_witness :
  ∃ records,
    demo_run.2 = Ok records ∧
    length records =
      length (@detector_results_of demo () demo_image_loader demo_region_detector 0%Z) ∧
    length (@detector_results_of demo () demo_image_loader demo_region_detector 0%Z)
      ≤ length (panoramic_boxes demo_args) ∧
    length (@detector_results_of demo () demo_image_loader demo_region_detector 0%Z)
      ≤ length demo_camera_infos ∧
    ∀ i r, records !! i = Some r →
      ∃ d C ci,
        @detector_results_of demo () demo_image_loader demo_region_detector 0%Z !! i
          = Some d ∧
        panoramic_boxes demo_args !! i = Some C ∧
        demo_camera_infos !! i = Some ci ∧
        camera_info r = ci ∧
        num_objects r = length (box_features r) ∧
        box_features r = slice_to C (Detection.features d) ∧
        boxes r = slice_to C (Detection.boxes d) ∧
        masks r = binarize (slice_to C (Detection.masks d)) ∧
        class_probs r = slice_to C (Detection.scores d) ∧
        class_labels r = slice_to C (Detection.labels d).
Proof.
  eexists. split; [vm_compute; reflexivity | ].
  apply (@returned_record_invariants demo () demo_image_loader demo_region_detector
           demo_args 0%Z).
  vm_compute. reflexivity.
Defined.

Lemma negative_cap_drops_from_the_end_witness :
  ∃ records r,
    @get_visual_features demo () demo_image_loader demo_region_detector
      negative_args 0%Z = (demo_calls, Ok records) ∧
    records !! 0 = Some r ∧
    num_objects r = 3 - Z.to_nat (- -1) ∧
    box_features r = take (3 - Z.to_nat (- -1)) (Detection.features three_detections) ∧
    boxes r = take (3 - Z.to_nat (- -1)) (Detection.boxes three_detections) ∧
    masks r = take (3 - Z.to_nat (- -1)) (binarize (Detection.masks three_detections)) ∧
    class_probs r = take (3 - Z.to_nat (- -1)) (Detection.scores three_detections) ∧
    class_labels r = take (3 - Z.to_nat (- -1)) (Detection.labels three_detections) ∧
    length (roi_angles r) = 3 - Z.to_nat (- -1).
Proof.
  apply (@negative_cap_drops_from_the_end demo () demo_image_loader
           demo_region_detector negative_args 0%Z 0 three_detections 3 (-1)%Z).
  - exact demo_angles_contract.
  - vm_compute. lia.
  - vm_compute. lia.
  - reflexivity.
  - vm_compute. repeat split.
  - reflexivity.
  - lia.
Defined.

Lemma cap_above_count_keeps_all_witness :
  ∃ records r ci,
    @get_visual_features demo () demo_image_loader demo_region_detector
      wide_args 0%Z = (demo_calls, Ok records) ∧
    records !! 0 = Some r ∧
    demo_camera_infos !! 0 = Some ci ∧
    num_objects r = 3 ∧
    box_features r = Detection.features three_detections ∧
    boxes r = Detection.boxes three_detections ∧
    masks r = binarize (Detection.masks three_detections) ∧
    class_probs r = Detection.scores three_detections ∧
    class_labels r = Detection.labels three_detections ∧
    length (roi_angles r) = 3 ∧
    (0 < 3 → roi_angles r = @stacked_angles demo ci (Detection.boxes three_detections)).
Proof.
  apply (@cap_above_count_keeps_all demo () demo_image_loader demo_region_detector
           wide_args 0%Z 0 three_detections 3 3%Z).
  - exact demo_angles_contract.
  - vm_compute. lia.
  - vm_compute. lia.
  - reflexivity.
  - vm_compute. repeat split.
  - reflexivity.
  - lia.
Defined.

Lemma larger_cap_extends_record_witness :
  ∃ records records' r r',
    demo_run.2 = Ok records ∧
    (@get_visual_features demo () demo_image_loader demo_region_detector
       wide_args 0%Z).2 = Ok records' ∧
    records !! 0 = Some r ∧ records' !! 0 = Some r' ∧
    box_features r = take (Z.to_nat 2) (box_features r') ∧
    roi_angles r = take (Z.to_nat 2) (roi_angles r') ∧
    boxes r = take (Z.to_nat 2) (boxes r') ∧
    masks r = take (Z.to_nat 2) (masks r') ∧
    class_probs r = take (Z.to_nat 2) (class_probs r') ∧
    class_labels r = take (Z.to_nat 2) (class_labels r') ∧
    camera_info r = camera_info r' ∧
    num_objects r ≤ num_objects r'.
Proof.
  eexists _, _, _, _.
  split; [vm_compute; reflexivity | ]. split; [vm_compute; reflexivity | ].
  split; [reflexivity | ]. split; [reflexivity | ].
  eapply (@larger_cap_extends_record demo () demo_image_loader demo_region_detector
            demo_args 0%Z wide_args _ _ 0 2%Z 3%Z).
  - vm_compute. reflexivity.
  - vm_compute. reflexivity.
  - reflexivity.
  - reflexivity.
  - lia.
  - reflexivity.
  - reflexivity.
Defined.

Lemma views_without_boxes_need_no_angles_witness :
  ∃ records,
    @get_visual_features lopsided () demo_image_loader empty_region_detector
      demo_args 0%Z
      = (@calls_of lopsided () demo_image_loader 0%Z, Ok records) ∧
    length records =
      length (@detector_results_of lopsided () demo_image_loader
                empty_region_detector 0%Z) ∧
    ∀ i r, records !! i = Some r → roi_angles r = [] ∧ boxes r = [].
Proof.
  apply (@views_without_boxes_need_no_angles lopsided () demo_image_loader
           empty_region_detector demo_args 0%Z).
  - intros [ | [ | i]] d; vm_compute; intros [= <-]; reflexivity.
  - vm_compute. lia.
  - vm_compute. lia.
Defined.

Lemma short_camera_metadata_raises_witness :
  ∃ e,
    @get_visual_features one_camera () demo_image_loader demo_region_detector
      demo_args 0%Z
      = (@calls_of one_camera () demo_image_loader 0%Z, Raise e) ∧
    (@angles_contract one_camera → e = IndexError).
Proof.
  apply (@short_camera_metadata_raises one_camera () demo_image_loader
           demo_region_detector demo_args 0%Z).
  vm_compute. lia.
Defined.

Lemma unequal_angle_sequences_raise_ValueError_witness :
  @get_visual_features lopsided () demo_image_loader demo_region_detector
    demo_args 0%Z
  = (@calls_of lopsided () demo_image_loader 0%Z, Raise ValueError).
Proof.
  apply (@unequal_angle_sequences_raise_ValueError lopsided () demo_image_loader
           demo_region_detector demo_args 0%Z 0 three_detections 2%Z
           (mkCameraInfo 90 60 0)).
  - reflexivity.
  - reflexivity.
  - reflexivity.
  - vm_compute. lia.
  - vm_compute. lia.
  - intros j Hj. lia.
Defined.

Lemma queue_holds_the_chosen_files_witness :
  ∃ task_queue splits' g',
    @queue_tasks reversing nat demo_splits (mkRunArgs "valid_seen" true true 4) 0
      = Py.Return (task_queue, splits', g') ∧
    task_queue ≡ₚ take 16 (seq 0 20) ∧
    length task_queue = 16 `min` length (seq 0 20).
Proof.
  apply (@queue_holds_the_chosen_files reversing nat demo_splits
           (mkRunArgs "valid_seen" true true 4) 0 (seq 0 20)).
  - exact reversing_shuffle_contract.
  - vm_compute. reflexivity.
Defined.

Lemma unshuffled_queue_keeps_file_order_witness :
  @queue_tasks reversing nat demo_splits (mkRunArgs "valid_seen" true false 4) 0
    = Py.Return (take 16 (seq 0 20), demo_splits, 0).
Proof.
  apply (@unshuffled_queue_keeps_file_order reversing nat demo_splits
           (mkRunArgs "valid_seen" true false 4) 0 (seq 0 20)).
  - reflexivity.
  - vm_compute. reflexivity.
Defined.

Lemma shuffle_reorders_the_stored_split_witness :
  ∃ task_queue splits' g',
    @queue_tasks reversing nat demo_splits (mkRunArgs "valid_unseen" false true 4) 0
      = Py.Return (task_queue, splits', g') ∧
    splits' = <["valid_unseen" := task_queue]> demo_splits ∧
    (true = true → false = false → splits' !! "valid_unseen" = Some task_queue) ∧
    (false = true → splits' = demo_splits) ∧
    ∀ name, name ≠ "valid_unseen" → splits' !! name = demo_splits !! name.
Proof.
  apply (@shuffle_reorders_the_stored_split reversing nat demo_splits
           (mkRunArgs "valid_unseen" false true 4) 0 [7; 8; 9]).
  vm_compute. reflexivity.
Defined.

Lemma single_worker_runs_in_caller_witness :
  @spawn_threads reversing nat (λ _, Py.Throw Py.TypeError) (Py.Return ())
    demo_splits (mkRunArgs "valid_unseen" false false 1) 0
  = ([NewLock; RunHere [7; 8; 9]], Py.Throw Py.TypeError).
Proof.
  apply (@single_worker_runs_in_caller reversing nat (λ _, Py.Throw Py.TypeError)
           (Py.Return ()) demo_splits (mkRunArgs "valid_unseen" false false 1) 0
           [7; 8; 9] demo_splits 0).
  - reflexivity.
  - vm_compute. reflexivity.
Defined.

Lemma workers_started_then_joined_witness :
  @spawn_threads reversing nat (λ _, Py.Throw Py.TypeError) (Py.Return ())
    demo_splits (mkRunArgs "valid_unseen" false false 3) 0
  = ([NewLock]
       ++ ((λ n, ProcessStart n [7; 8; 9]) <$> seq 0 (Z.to_nat 3))
       ++ (ProcessJoin <$> seq 0 (Z.to_nat 3))
       ++ [SaveResults],
     Py.Return (demo_splits, 0)) ∧
  ((3 ≤ 0)%Z →
     (@spawn_threads reversing nat (λ _, Py.Throw Py.TypeError) (Py.Return ())
        demo_splits (mkRunArgs "valid_unseen" false false 3) 0).1
     = [NewLock; SaveResults]).
Proof.
  apply (@workers_started_then_joined reversing nat (λ _, Py.Throw Py.TypeError)
           (Py.Return ()) demo_splits (mkRunArgs "valid_unseen" false false 3) 0
           [7; 8; 9] demo_splits 0).
  - simpl. lia.
  - vm_compute. reflexivity.
Defined.

Lemma missing_split_stops_before_any_work_witness :
  @queue_tasks reversing nat demo_splits (mkRunArgs "train" false true 4) 0
    = Py.Throw (Py.KeyError (Py.Str "train")) ∧
  @spawn_threads reversing nat (λ _, Py.Return ()) (Py.Return ())
    demo_splits (mkRunArgs "train" false true 4) 0
  = ([], Py.Throw (Py.KeyError (Py.Str "train"))).
Proof.
  apply (@missing_split_stops_before_any_work reversing nat (λ _, Py.Return ())
           (Py.Return ()) demo_splits (mkRunArgs "train" false true 4) 0).
  vm_compute. reflexivity.
Defined.


Lemma missing_scene_key_leaves_env_untouched_witness :
  ∃ k', bare_scene !! k' = None ∧
    @setup_scene dict_of_dict () (JDict bare_traj) 0 () "dense"
      = ([], Py.Throw (Py.KeyError (Py.Str k'))).
Proof.
  apply (@missing_scene_key_leaves_env_untouched dict_of_dict () bare_traj bare_scene
           "object_toggles" 0%Z () "dense").
  - vm_compute. reflexivity.
  - set_solver.
  - vm_compute. reflexivity.
Defined.

Lemma bad_annotation_index_found_after_step_witness :
  @setup_scene dict_of_dict () (JDict demo_traj) 2 () "dense" =
    ([Reset ("FloorPlan" +:+ pretty 12%Z);
      RestoreScene (JList [JStr "Mug"]) (JList []) (JBool false);
      Step (JDict demo_action)],
     Py.Throw Py.IndexError).
Proof.
  apply (@bad_annotation_index_found_after_step dict_of_dict () demo_traj demo_scene
           demo_turk demo_anns demo_action 12%Z
           (JList [JStr "Mug"]) (JBool false) (JList []) 2%Z () "dense").
  - exact dict_of_dict_contract.
  - vm_compute. reflexivity.
  - vm_compute. reflexivity.
  - vm_compute. reflexivity.
  - vm_compute. reflexivity.
  - vm_compute. reflexivity.
  - vm_compute. reflexivity.
  - vm_compute. reflexivity.
  - vm_compute. reflexivity.
  - simpl. lia.
Defined.

Lemma negative_r_idx_counts_from_the_end_witness :
  @setup_scene dict_of_dict () (JDict demo_traj) (-1) () "dense" =
  @setup_scene dict_of_dict () (JDict demo_traj)
    (-1 + Z.of_nat (length demo_anns)) () "dense".
Proof.
  apply (@negative_r_idx_counts_from_the_end dict_of_dict () (JDict demo_traj)
           demo_anns (-1)%Z () "dense").
  - vm_compute. reflexivity.
  - simpl. lia.
Defined.

Lemma dout_of_bare_name_witness :
  dout_of "/"%char (chars "best_seen.pth") = Py.Return [].
Proof.
  apply (dout_of_bare_name "/"%char (chars "best_seen.pth")).
  apply (bool_decide_unpack _). vm_compute. exact I.
Defined.

Lemma dout_of_strips_the_file_name_witness :
  dout_of "/"%char (chars "exp" ++ "/"%char :: chars "net.pth")
    = Py.Return (chars "exp" ++ ["/"%char]).
Proof.
  apply (dout_of_strips_the_file_name "/"%char (chars "exp") (chars "net.pth")).
  - discriminate.
  - apply (bool_decide_unpack _). vm_compute. exact I.
  - intros k Hk. apply (bool_decide_unpack _).
    destruct k as [ | [ | [ | [ | k]]]]; [vm_compute; exact I .. | simpl in Hk; lia].
Defined.

Lemma dout_of_loses_a_directory_named_like_the_file_witness :
  dout_of "/"%char (chars "model" ++ "/"%char :: chars "model")
    = Py.Return ["/"%char].
Proof.
  apply (dout_of_loses_a_directory_named_like_the_file "/"%char (chars "model")).
  - discriminate.
  - apply (bool_decide_unpack _). vm_compute. exact I.
Defined.
